(** * compose: scaffolding of React component skeletons

    A shallow embedding of [compose.py] and the properties of its name
    validator, template registry, renderer, file writer and entry point.

    Python [str] values are sequences of Unicode code points and are
    modelled as [list N].  The interpreter's library functions the script
    calls ([re.match], [str.format], [str.casefold], [pathlib], [input],
    [print]) are embedded next to the functions of the script that use
    them, following the CPython reference behaviour. *)

From Stdlib Require Import NArith ZArith String Ascii List Lia Bool.
From stdpp Require Import gmap list.
Import ListNotations.

Local Open Scope N_scope.

(** ** Strings *)

Abbreviation str := (list N).

(** An ASCII literal of the script as a sequence of code points. *)
Definition str_of (s : string) : str :=
  List.map N_of_ascii (list_ascii_of_string s).

Definition NL : N := 10.

(** Concatenation of source lines, each followed by a line feed: the value
    of a triple-quoted literal opened with a backslash-newline. *)
Definition text (ls : list string) : str :=
  List.concat (List.map (fun l => str_of l ++ [NL]) ls).

Definition str_eqb (a b : str) : bool := bool_decide (a = b).

(** ** Character data of the interpreter

    The Unicode character database is not part of the script.  Its ASCII
    range is written out below; what it says about the code points from 128
    on is a parameter of the development. *)

Record UnicodeData := {
  alnum_hi : N -> bool;        (* [str.isalnum] of a non-ASCII code point *)
  casefold_hi : N -> list N    (* full case folding of a non-ASCII code point *)
}.

Definition is_upper (c : N) : bool := (65 <=? c) && (c <=? 90).
Definition is_lower (c : N) : bool := (97 <=? c) && (c <=? 122).
Definition is_digit (c : N) : bool := (48 <=? c) && (c <=? 57).
Definition is_ascii (c : N) : bool := c <? 128.

Definition ascii_alnum (c : N) : bool := is_upper c || is_lower c || is_digit c.

(** The characters the specification calls "ASCII letter, digit, or
    underscore". *)
Definition ascii_word (c : N) : bool := ascii_alnum c || (c =? 95).

Definition isalnum (ucd : UnicodeData) (c : N) : bool :=
  if is_ascii c then ascii_alnum c else alnum_hi ucd c.

(** ** Regular expressions: the fragment used by the script

    [re.match] anchors at the start of the string and need not consume all
    of it.  A pattern is a sequence of atoms; a starred set is greedy and
    backtracks. *)

Inductive atom :=
| Bol                          (* ^ *)
| Eol                          (* $ *)
| OneOf (p : N -> bool)        (* [...] *)
| Many (p : N -> bool).        (* [...]* *)

(** [$] without [re.MULTILINE]: at the end of the string, or just before a
    line feed that is the last character of the string. *)
Definition at_eol (rest : str) : bool :=
  match rest with
  | [] => true
  | [c] => c =? NL
  | _ => false
  end.

Fixpoint re_run (pat : list atom) : bool -> str -> bool :=
  match pat with
  | [] => fun _ _ => true
  | Bol :: pat' => fun start s => start && re_run pat' start s
  | Eol :: pat' => fun start s => at_eol s && re_run pat' start s
  | OneOf p :: pat' => fun _ s =>
      match s with
      | [] => false
      | c :: s' => p c && re_run pat' false s'
      end
  | Many p :: pat' =>
      fix many (start : bool) (s : str) {struct s} : bool :=
        match s with
        | [] => re_run pat' start []
        | c :: s' => (p c && many false s') || re_run pat' start s
        end
  end.

(** [re.match(pat, s) is not None] *)
Definition re_match (pat : list atom) (s : str) : bool := re_run pat true s.

(** [\w] on a [str] pattern: the alphanumeric characters of Unicode and the
    underscore. *)
Definition re_word (ucd : UnicodeData) (c : N) : bool :=
  isalnum ucd c || (c =? 95).

(** ** Name validator *)

(** [r'^[A-Z][\w]*$'] *)
Definition component_name_re (ucd : UnicodeData) : list atom :=
  [Bol; OneOf is_upper; Many (re_word ucd); Eol].

Definition is_component_name (ucd : UnicodeData) (name : str) : bool :=
  re_match (component_name_re ucd) name.

(** The validator as the specification words it: an uppercase ASCII letter
    followed only by ASCII letters, digits and underscores. *)
Definition spec_is_valid_name (name : str) : bool :=
  match name with
  | [] => false
  | c :: rest => is_upper c && forallb ascii_word rest
  end.

(** A character database that knows nothing beyond ASCII, for examples. *)
Definition ascii_only : UnicodeData :=
  {| alnum_hi := fun _ => false; casefold_hi := fun c => [c] |}.

(** ** Outcomes of effectful code

    [Unsupported] marks the inputs on which this development does not say
    what the interpreter does (they are listed where it is produced); no
    property below is stated about them. *)

Inductive exn :=
| SystemExit (code : Z)
| ValueError
| KeyError
| IndexError
| EOFError
| FileNotFoundError
| FileExistsError
| NotADirectoryError
| IsADirectoryError
| OSError.      (* the plain [OSError] of errno ENAMETOOLONG *)

Inductive outcome (A : Type) :=
| Ret (a : A)
| Raise (e : exn)
| Unsupported.

Arguments Ret {A} a.
Arguments Raise {A} e.
Arguments Unsupported {A}.

(** ** [str.format] with the single keyword argument [name]

    The scanner of CPython's format strings, as a machine that reads one
    character at a time.  Literal text ends at a brace; a doubled brace is
    one literal brace; a single closing brace is an error; a single opening
    brace starts a replacement field, which runs to the next closing brace
    (a bracketed index inside it is skipped as a whole). *)

Definition LBRACE : N := 123.
Definition RBRACE : N := 125.
Definition LBRACK : N := 91.
Definition RBRACK : N := 93.
Definition COLON : N := 58.
Definition BANG : N := 33.
Definition DOT : N := 46.

Inductive scan :=
| InText                    (* literal text *)
| AfterOpen                 (* literal text ended at an opening brace *)
| AfterClose                (* literal text ended at a closing brace *)
| InField (seen : str)      (* in a field name; [seen] is reversed *)
| InIndex (seen : str).     (* in a bracketed index of a field name *)

(** The part of a field name before its first [.] or [[]: the argument the
    field refers to. *)
Fixpoint field_first (field : str) : str :=
  match field with
  | [] => []
  | c :: rest =>
      if (c =? DOT) || (c =? LBRACK) then [] else c :: field_first rest
  end.

(** The value of a replacement field without conversion and format
    specification, when the call supplies no positional argument and the
    one keyword [name].  An empty or numeric argument name indexes the
    (empty) positional arguments; any other is looked up among the
    keywords.  [Unsupported]: attribute or index access into the value, and
    argument names that start with a digit without being a short ASCII
    number or that start with a non-ASCII character (whether they are
    numbers is decided by the character database and the word size). *)
Definition field_value (name field : str) : outcome str :=
  let first := field_first field in
  if str_eqb first (str_of "name") then
    if str_eqb field first then Ret name else Unsupported
  else
    match first with
    | [] => Raise IndexError
    | c :: _ =>
        if is_ascii c && negb (is_digit c) then Raise KeyError
        else if forallb is_digit first && (length first <=? 9)%nat
             then Raise IndexError
             else Unsupported
    end.

Definition prepend (pre : str) (r : outcome str) : outcome str :=
  match r with
  | Ret s => Ret (pre ++ s)
  | Raise e => Raise e
  | Unsupported => Unsupported
  end.

(** [Unsupported]: a field with a conversion ([!r]) or a format
    specification ([:>10]). *)
Fixpoint format_from (name : str) (st : scan) (s : str) : outcome str :=
  match s with
  | [] =>
      match st with
      | InText => Ret []
      | _ => Raise ValueError
      end
  | c :: s' =>
      let in_field (seen : str) : outcome str :=
        if c =? LBRACE then Raise ValueError
        else if c =? LBRACK then format_from name (InIndex (c :: seen)) s'
        else if c =? RBRACE then
          match field_value name (rev seen) with
          | Ret v => prepend v (format_from name InText s')
          | Raise e => Raise e
          | Unsupported => Unsupported
          end
        else if (c =? COLON) || (c =? BANG) then Unsupported
        else format_from name (InField (c :: seen)) s' in
      match st with
      | InText =>
          if c =? LBRACE then format_from name AfterOpen s'
          else if c =? RBRACE then format_from name AfterClose s'
          else prepend [c] (format_from name InText s')
      | AfterOpen =>
          if c =? LBRACE then prepend [LBRACE] (format_from name InText s')
          else in_field []
      | AfterClose =>
          if c =? RBRACE then prepend [RBRACE] (format_from name InText s')
          else Raise ValueError
      | InField seen => in_field seen
      | InIndex seen =>
          if c =? RBRACK then format_from name (InField (c :: seen)) s'
          else format_from name (InIndex (c :: seen)) s'
      end
  end.

(** [template.format(name=name)] *)
Definition format (template name : str) : outcome str :=
  format_from name InText template.

(** ** Templates *)

Definition INDEX : str := text [
  "import React from 'react'";
  "import PropTypes from 'prop-types'";
  "import Actions, {{ actionPropTypes }} from './Actions'";
  "import View from './View'";
  "";
  "const {name} = (props) => (";
  "  <View {{...props}} {{...Actions(props)}} />";
  ")";
  "";
  "const propTypes = {{ }}";
  "";
  "{name}.displayName = '{name}'";
  "";
  "{name}.propTypes = propTypes";
  "";
  "View.propTypes = {{";
  "  ...propTypes,";
  "  ...actionPropTypes,";
  "}}";
  "";
  "export default {name}"
]%string.

Definition SIMPLE_INDEX : str := text [
  "import React from 'react'";
  "import PropTypes from 'prop-types'";
  "import styles from './styles.module.css'";
  "";
  "const {name} = (props) => (";
  "  <></>";
  ")";
  "";
  "{name}.displayName = '{name}'";
  "";
  "{name}.propTypes = {{ }}";
  "";
  "export default {name}"
]%string.

Definition VIEW : str := text [
  "import React from 'react'";
  "import styles from './styles.module.css'";
  "";
  "const View = (props) => (";
  "  <>";
  "  </>";
  ")";
  "";
  "View.displayName = '{name}/View'";
  "";
  "export default View"
]%string.

Definition ACTIONS : str := text [
  "import React from 'react'";
  "import PropTypes from 'prop-types'";
  "";
  "const Actions = (props) => {{ }}";
  "";
  "export const actionPropTypes = {{ }}";
  "";
  "export default Actions"
]%string.

(** A [dict] literal keeps its keys in the order they are written. *)
Definition get_templates (simple : bool) : list (str * str) :=
  if simple then
    [(str_of "index.js", SIMPLE_INDEX); (str_of "styles.module.css", [])]
  else
    [(str_of "index.js", INDEX);
     (str_of "Actions.js", ACTIONS);
     (str_of "View.js", VIEW);
     (str_of "styles.module.css", [])].

(** ** Paths

    A [pathlib.Path] on POSIX: whether it starts at the root, its
    components, and whether the root is written with exactly two slashes
    (which [pathlib] keeps, and which names the same place).  Parsing a
    string drops empty components and single dots and keeps double dots. *)

Record Path := { anchored : bool; parts : list str; doubled : bool }.

Definition SLASH : N := 47.

Fixpoint split_on (sep : N) (s : str) : list str :=
  match s with
  | [] => [[]]
  | c :: s' =>
      if c =? sep then [] :: split_on sep s'
      else match split_on sep s' with
           | [] => [[c]]
           | h :: t => (c :: h) :: t
           end
  end.

Definition keep_part (p : str) : bool :=
  negb (str_eqb p []) && negb (str_eqb p (str_of ".")).

Definition parse_path (s : str) : Path :=
  {| anchored := match s with c :: _ => c =? SLASH | [] => false end;
     parts := List.filter keep_part (split_on SLASH s);
     doubled := match s with
                | a :: b :: rest =>
                    (a =? SLASH) && (b =? SLASH)
                    && negb (match rest with c :: _ => c =? SLASH | [] => false end)
                | _ => false
                end |}.

(** [p / s] *)
Definition path_join (p : Path) (s : str) : Path :=
  let q := parse_path s in
  if anchored q then q
  else {| anchored := anchored p; parts := parts p ++ parts q;
          doubled := doubled p |}.

Fixpoint join_with (sep : N) (l : list str) : str :=
  match l with
  | [] => []
  | [x] => x
  | x :: rest => x ++ sep :: join_with sep rest
  end.

(** [str(p)] *)
Definition path_str (p : Path) : str :=
  if anchored p then
    (if doubled p then [SLASH; SLASH] else [SLASH])
    ++ join_with SLASH (parts p)
  else match parts p with
       | [] => str_of "."
       | _ => join_with SLASH (parts p)
       end.

(** ** The world the process runs in

    The file system holds directories and regular files only; it is a map
    from the components of an absolute location to what is stored there,
    the root being a directory that is not stored.  A name of more than 255
    bytes is refused, as on the usual file systems of Linux.  There are no
    links, no permissions and no limits on space or on the length of a
    whole path, so the other errors are those of the shape of the tree. *)

Inductive node :=
| Dir
| File (data : str).

Record world := {
  files : gmap (list str) node;
  cwd : list str;
  stdin : list str;       (* the lines still to be read, without terminator *)
  stdout : str;
  stderr : str
}.

Definition set_files (f : gmap (list str) node) (w : world) : world :=
  {| files := f; cwd := cwd w; stdin := stdin w;
     stdout := stdout w; stderr := stderr w |}.

Definition io (A : Type) : Type := world -> outcome A * world.

Definition ret {A} (a : A) : io A := fun w => (Ret a, w).
Definition raise {A} (e : exn) : io A := fun w => (Raise e, w).
Definition unsupported {A} : io A := fun w => (Unsupported, w).

Definition bind {A B} (c : io A) (k : A -> io B) : io B :=
  fun w =>
    match c w with
    | (Ret a, w') => k a w'
    | (Raise e, w') => (Raise e, w')
    | (Unsupported, w') => (Unsupported, w')
    end.

Notation "x <- c ;; k" := (bind c (fun x => k))
  (at level 100, c at next level, right associativity).
Notation "c ;;; k" := (bind c (fun _ => k))
  (at level 100, right associativity).

(** The absolute location a path names.  [None]: the path has a double-dot
    component, whose meaning depends on the tree; such paths are
    [Unsupported] in every operation below. *)
Definition locate (w : world) (p : Path) : option (list str) :=
  let full := if anchored p then parts p else cwd w ++ parts p in
  if existsb (str_eqb (str_of "..")) full then None else Some full.

(** The bytes of a name as the file system sees it: the UTF-8 encoding,
    a code point of U+DC80..U+DCFF standing for the one byte it escapes. *)
Definition utf8_len (c : N) : N :=
  if c <? 128 then 1
  else if c <? 2048 then 2
  else if (56448 <=? c) && (c <=? 56575) then 1
  else if c <? 65536 then 3
  else 4.

Definition byte_length (s : str) : N :=
  fold_right (fun c n => utf8_len c + n) 0 s.

Definition NAME_MAX : N := 255.

Definition name_fits (c : str) : bool := byte_length c <=? NAME_MAX.

(** Path resolution: every component is looked up in a directory; a name
    that is too long is refused where it is looked up. *)
Fixpoint walk (fs : gmap (list str) node) (cur : list str) (k : node)
    (comps : list str) : exn + node :=
  match comps with
  | [] => inr k
  | c :: rest =>
      match k with
      | File _ => inl NotADirectoryError
      | Dir =>
          if negb (name_fits c) then inl OSError
          else match fs !! (cur ++ [c]) with
               | None => inl FileNotFoundError
               | Some k' => walk fs (cur ++ [c]) k' rest
               end
      end
  end.

Definition stat (fs : gmap (list str) node) (p : list str) : exn + node :=
  walk fs [] Dir p.

Definition is_dir (fs : gmap (list str) node) (p : list str) : bool :=
  match stat fs p with
  | inr Dir => true
  | _ => false
  end.

(** The errors of [stat] that [pathlib] takes for "no such path". *)
Definition ignored (e : exn) : bool :=
  match e with
  | FileNotFoundError | NotADirectoryError => true
  | _ => false
  end.

(** [Path.exists()]: a path with a missing entry or with a file in the
    place of a directory does not exist; any other error of [stat] is
    raised again. *)
Definition path_exists (p : Path) : io bool :=
  fun w =>
    match locate w p with
    | None => (Unsupported, w)
    | Some lp =>
        match stat (files w) lp with
        | inr _ => (Ret true, w)
        | inl e => if ignored e then (Ret false, w) else (Raise e, w)
        end
    end.

(** [os.mkdir] *)
Definition os_mkdir (fs : gmap (list str) node) (p : list str)
  : exn + gmap (list str) node :=
  match p with
  | [] => inl FileExistsError
  | _ =>
      match stat fs (removelast p) with
      | inl e => inl e
      | inr (File _) => inl NotADirectoryError
      | inr Dir =>
          if negb (name_fits (List.last p [])) then inl OSError
          else match fs !! p with
               | Some _ => inl FileExistsError
               | None => inr (<[p := Dir]> fs)
               end
      end
  end.

(** [Path.mkdir(parents=False, exist_ok=exist_ok)] *)
Definition mkdir_plain (exist_ok : bool) (p : Path) : io unit :=
  fun w =>
    match locate w p with
    | None => (Unsupported, w)
    | Some lp =>
        match os_mkdir (files w) lp with
        | inr fs' => (Ret tt, set_files fs' w)
        | inl FileNotFoundError => (Raise FileNotFoundError, w)
        | inl e =>
            if exist_ok && is_dir (files w) lp then (Ret tt, w)
            else (Raise e, w)
        end
    end.

(** [Path.mkdir(parents=True, exist_ok=exist_ok)], by recursion on the
    components of the path from the last one: when the parent is missing it
    is made first (with [exist_ok=True]), then the directory itself (with
    [parents=False]).  A path without components is its own parent. *)
Fixpoint mkdir_parents (exist_ok anch : bool) (rparts : list str) : io unit :=
  fun w =>
    let p := {| anchored := anch; parts := rev rparts; doubled := false |} in
    match locate w p with
    | None => (Unsupported, w)
    | Some lp =>
        match os_mkdir (files w) lp with
        | inr fs' => (Ret tt, set_files fs' w)
        | inl FileNotFoundError =>
            match rparts with
            | [] => (Raise FileNotFoundError, w)
            | _ :: rparent =>
                (mkdir_parents true anch rparent ;;; mkdir_plain exist_ok p) w
            end
        | inl e =>
            if exist_ok && is_dir (files w) lp then (Ret tt, w)
            else (Raise e, w)
        end
    end.

(** [Path.mkdir(parents=parents)] *)
Definition mkdir (parents : bool) (p : Path) : io unit :=
  if parents then mkdir_parents false (anchored p) (rev (parts p))
  else mkdir_plain false p.

(** [Path.open('w')]: the file is created, or emptied when it exists.  The
    handle is the location of the file. *)
Definition open_w (p : Path) : io (list str) :=
  fun w =>
    match locate w p with
    | None => (Unsupported, w)
    | Some [] => (Raise IsADirectoryError, w)
    | Some lp =>
        match stat (files w) (removelast lp) with
        | inl e => (Raise e, w)
        | inr (File _) => (Raise NotADirectoryError, w)
        | inr Dir =>
            if negb (name_fits (List.last lp [])) then (Raise OSError, w)
            else match files w !! lp with
                 | Some Dir => (Raise IsADirectoryError, w)
                 | _ => (Ret lp, set_files (<[lp := File []]> (files w)) w)
                 end
        end
    end.

(** [file.write(data)] *)
Definition file_write (file : list str) (data : str) : io unit :=
  fun w =>
    match files w !! file with
    | Some (File old) =>
        (Ret tt, set_files (<[file := File (old ++ data)]> (files w)) w)
    | _ => (Ret tt, w)
    end.

Definition put_stdout (s : str) (w : world) : world :=
  {| files := files w; cwd := cwd w; stdin := stdin w;
     stdout := stdout w ++ s; stderr := stderr w |}.

Definition put_stderr (s : str) (w : world) : world :=
  {| files := files w; cwd := cwd w; stdin := stdin w;
     stdout := stdout w; stderr := stderr w ++ s |}.

Definition drop_line (w : world) : world :=
  {| files := files w; cwd := cwd w; stdin := tl (stdin w);
     stdout := stdout w; stderr := stderr w |}.

(** [print(s)] and [print(s, file=sys.stderr)] *)
Definition print (s : str) : io unit :=
  fun w => (Ret tt, put_stdout (s ++ [NL]) w).

Definition print_err (s : str) : io unit :=
  fun w => (Ret tt, put_stderr (s ++ [NL]) w).

(** [input(prompt)]: the prompt goes to the standard output, then one line
    is read and returned without its terminator. *)
Definition input (prompt : str) : io str :=
  fun w =>
    let w' := drop_line (put_stdout prompt w) in
    match stdin w with
    | [] => (Raise EOFError, w')
    | line :: _ => (Ret line, w')
    end.

(** [str.casefold] *)
Definition casefold_char (ucd : UnicodeData) (c : N) : str :=
  if is_ascii c then [if is_upper c then c + 32 else c]
  else casefold_hi ucd c.

Definition casefold (ucd : UnicodeData) (s : str) : str :=
  flat_map (casefold_char ucd) s.

(** ** The script *)

Definition confirm (ucd : UnicodeData) (prompt true_value : str) : io bool :=
  line <- input prompt ;;
  ret (str_eqb (casefold ucd line) (casefold ucd true_value)).

(** [render_template(file, template, name=name)]: the only context the
    script ever passes is the one key [name]. *)
Definition render_template (file : list str) (template name : str) : io unit :=
  match format template name with
  | Ret s => file_write file s
  | Raise e => raise e
  | Unsupported => unsupported
  end.

(** The loop of [make_component] over the items of the mapping; leaving the
    [with] block closes the file, which changes nothing here. *)
Fixpoint write_items (root : Path) (name : str) (items : list (str * str))
  : io unit :=
  match items with
  | [] => ret tt
  | (path, template) :: rest =>
      file <- open_w (path_join root path) ;;
      render_template file template name ;;;
      write_items root name rest
  end.

Definition make_component (name : str) (base : Path)
    (file_template_mapping : list (str * str)) : io unit :=
  let root := path_join base name in
  found <- path_exists root ;;
  (if negb found then mkdir true root else ret tt) ;;;
  write_items root name file_template_mapping.

(** [*filenames, last_filename = filenames] *)
Definition unpack_last {A} (l : list A) : option (list A * A) :=
  match rev l with
  | [] => None
  | x :: r => Some (rev r, x)
  end.

Fixpoint for_each {A} (l : list A) (body : A -> io unit) : io unit :=
  match l with
  | [] => ret tt
  | x :: rest => body x ;;; for_each rest body
  end.

Definition print_tree (filenames : list str) : io unit :=
  match unpack_last filenames with
  | None => raise ValueError
  | Some (filenames, last_filename) =>
      for_each filenames (fun filename =>
        print (str_of "    |---- " ++ filename)) ;;;
      print (str_of "    \---- " ++ last_filename)
  end.

Record args := {
  dir : Path;
  component_name : str;
  skip_confirm : bool;
  simple : bool
}.

(** [Path('.')], the default of the positional [dir]. *)
Definition default_dir : Path := {| anchored := false; parts := []; doubled := false |}.

Definition msg_bad_name : str :=
  str_of "Error: El nombre del componente debe comenzar "
  ++ str_of "en una letra may" ++ [250] ++ str_of "scula y no debe contener espacios.".

Definition msg_plan : str :=
  str_of "Esta operaci" ++ [243] ++ str_of "n resultar" ++ [225]
  ++ str_of " en el siguiente arbol de archivos:" ++ [NL].

Definition msg_overwrite : str :=
  str_of "Si alguno de estos archivos ya existe, ser" ++ [225]
  ++ str_of "n sobreescritos.".

Definition msg_prompt : str := [191] ++ str_of "Desea continuar? (s/n) ".

Definition msg_cancelled : str :=
  str_of "Operaci" ++ [243] ++ str_of "n cancelada.".

Definition msg_done : str :=
  str_of "Operaci" ++ [243] ++ str_of "n realizada exitosamente.".

(** [main] from its second statement on: [a] is what [parse_args] has
    returned.  (When [parse_args] does not return, [argparse] has ended the
    process itself: status 2 and a message on the error stream for a wrong
    command line, status 0 after printing the help for [-h].) *)
Definition main (ucd : UnicodeData) (a : args) : io unit :=
  let base_path := dir a in
  let component_name := component_name a in
  (if negb (is_component_name ucd component_name) then
     print_err msg_bad_name ;;;
     raise (SystemExit 1)
   else ret tt) ;;;
  let templates := get_templates (simple a) in
  print (msg_plan ++ str_of " "
         ++ path_str (path_join base_path component_name) ++ [SLASH]) ;;;
  print_tree (List.map fst templates) ;;;
  print msg_overwrite ;;;
  cancel <- (if negb (skip_confirm a) then
               yes <- confirm ucd msg_prompt (str_of "s") ;;
               ret (negb yes)
             else ret false) ;;
  (if cancel then
     print msg_cancelled ;;;
     raise (SystemExit 0)
   else ret tt) ;;;
  make_component component_name base_path templates ;;;
  print msg_done.

(** The exit status of the process: 0 when [main] returns, the code of
    [sys.exit], 1 for any other exception that reaches the top. *)
Definition exit_status (r : outcome unit) : option Z :=
  match r with
  | Ret _ => Some 0%Z
  | Raise (SystemExit code) => Some code
  | Raise _ => Some 1%Z
  | Unsupported => None
  end.

(** ** Auxiliary notions used in the statements *)

(** [s.startswith(sub)] and, below, [sub in s]. *)
Fixpoint starts_with (sub s : str) : bool :=
  match sub, s with
  | [], _ => true
  | _ :: _, [] => false
  | a :: sub', b :: s' => (a =? b) && starts_with sub' s'
  end.

Fixpoint contains (sub s : str) : bool :=
  starts_with sub s ||
  match s with
  | [] => false
  | _ :: s' => contains sub s'
  end.

(** The entries of a directory: the stored locations whose parent it is. *)
Definition listdir (fs : gmap (list str) node) (d : list str)
  : list (list str * node) :=
  List.filter (fun e => bool_decide (removelast (fst e) = d ∧ fst e ≠ []))
              (map_to_list fs).

Definition empty_world : world :=
  {| files := ∅; cwd := []; stdin := []; stdout := []; stderr := [] |}.

(** Whether the last character of a string is a line feed. *)
Fixpoint ends_nl (s : str) : bool :=
  match s with
  | [] => false
  | [c] => c =? NL
  | _ :: s' => ends_nl s'
  end.

(** The renderer as the specification words it: every occurrence of the
    token [{name}] replaced by the name, every other character kept
    ([str.replace]). *)
Fixpoint replace_token (skip : nat) (name t : str) : str :=
  match t with
  | [] => []
  | c :: t' =>
      match skip with
      | S k => replace_token k name t'
      | O =>
          if starts_with (str_of "{name}") t
          then name ++ replace_token 5 name t'
          else c :: replace_token 0 name t'
      end
  end.

Definition spec_render (t name : str) : str := replace_token 0 name t.

(** The templates the renderer is meant for: literal characters other than
    braces, doubled braces, and the field [{name}]. *)
Inductive piece :=
| Lit (c : N)
| LBr
| RBr
| NameField.

Definition is_brace (c : N) : bool := (c =? LBRACE) || (c =? RBRACE).

Definition piece_ok (p : piece) : bool :=
  match p with
  | Lit c => negb (is_brace c)
  | _ => true
  end.

(** How a piece is written in a template, and what it stands for. *)
Definition piece_source (p : piece) : str :=
  match p with
  | Lit c => [c]
  | LBr => [LBRACE; LBRACE]
  | RBr => [RBRACE; RBRACE]
  | NameField => str_of "{name}"
  end.

Definition piece_value (name : str) (p : piece) : str :=
  match p with
  | Lit c => [c]
  | LBr => [LBRACE]
  | RBr => [RBRACE]
  | NameField => name
  end.

Definition source (ps : list piece) : str := flat_map piece_source ps.
Definition expand (name : str) (ps : list piece) : str :=
  flat_map (piece_value name) ps.

(** Reading a template back into pieces, when it is made of pieces. *)
Fixpoint pieces_from (skip : nat) (t : str) : option (list piece) :=
  match t with
  | [] => match skip with O => Some [] | S _ => None end
  | c :: t' =>
      match skip with
      | S k => pieces_from k t'
      | O =>
          if starts_with (str_of "{name}") t
          then option_map (cons NameField) (pieces_from 5 t')
          else if starts_with [LBRACE; LBRACE] t
          then option_map (cons LBr) (pieces_from 1 t')
          else if starts_with [RBRACE; RBRACE] t
          then option_map (cons RBr) (pieces_from 1 t')
          else if is_brace c then None
          else option_map (cons (Lit c)) (pieces_from 0 t')
      end
  end.

Definition pieces (t : str) : option (list piece) := pieces_from 0 t.

(** The confirmation as the specification words it: the line with
    surrounding white space removed, compared to the token without regard
    to case. *)
Definition is_space (c : N) : bool := (c =? 32) || ((9 <=? c) && (c <=? 13)).

Fixpoint lstrip (s : str) : str :=
  match s with
  | c :: s' => if is_space c then lstrip s' else s
  | [] => []
  end.

Definition strip (s : str) : str := rev (lstrip (rev (lstrip s))).

Definition ascii_lower (s : str) : str :=
  List.map (fun c => if is_upper c then c + 32 else c) s.

Definition spec_confirms (line : str) : bool :=
  str_eqb (ascii_lower (strip line)) (str_of "s").

(** The lines of the file tree for a list of names: one line per name, in
    order, the last one marked. *)
Definition tree_prefix (last : bool) : str :=
  if last then str_of "    \---- " else str_of "    |---- ".

Definition unlines (ls : list str) : str :=
  flat_map (fun l => l ++ [NL]) ls.


Definition same_kind (a b : node) : bool :=
  match a, b with
  | Dir, Dir => true
  | File _, File _ => true
  | _, _ => false
  end.

(** [g] has every entry of [fs], of the same kind. *)
Definition extends (fs g : gmap (list str) node) : Prop :=
  forall p a, fs !! p = Some a ->
    exists b, g !! p = Some b /\ same_kind a b = true.

(** [g] has no directory that [fs] does not have. *)
Definition no_new_dirs (fs g : gmap (list str) node) : Prop :=
  forall p, g !! p = Some Dir -> fs !! p = Some Dir.

(** What [g] has beyond [fs] are directories on the way to [target]. *)
Definition grown_towards (target : list str) (fs g : gmap (list str) node)
  : Prop :=
  forall p, g !! p = fs !! p
            \/ (fs !! p = None /\ g !! p = Some Dir /\ p `prefix_of` target).

(** One turn of the loop of [make_component]. *)
Definition write_item (root : Path) (name : str) (item : str * str) : io unit :=
  file <- open_w (path_join root (fst item)) ;;
  render_template file (snd item) name.

(** When a turn of the loop succeeds. *)
Definition writable (w : world) (lp : list str) : Prop :=
  lp <> [] /\ stat (files w) (removelast lp) = inr Dir
  /\ files w !! lp <> Some Dir
  /\ name_fits (List.last lp []) = true.

(** The locations the loop of [make_component] writes to. *)
Definition targets (w : world) (root : Path) (items : list (str * str))
  : list (list str) :=
  omap (fun item => locate w (path_join root (fst item))) items.

(** A file open for writing, and a small template, for examples. *)
Definition scratch_file : list str := [str_of "out"].

Definition scratch_world : world :=
  set_files (<[scratch_file := File []]> ∅) empty_world.

Definition demo_pieces : list piece :=
  [Lit 60; NameField; Lit 32; Lit 120; Lit 61; LBr; Lit 49; RBr;
   Lit 32; Lit 47; Lit 62].

Definition os_error (e : exn) : bool :=
  match e with
  | FileNotFoundError | FileExistsError
  | NotADirectoryError | IsADirectoryError | OSError => true
  | _ => false
  end.

Definition renders (name : str) (item : str * str) : Prop :=
  exists ps, pieces (snd item) = Some ps
             /\ forallb piece_ok ps = true
             /\ source ps = snd item
             /\ format (snd item) name = Ret (expand name ps).

(** A key that is a single ordinary file name. *)
Definition plain_key (key : str) : Prop :=
  parse_path key = {| anchored := false; parts := [key]; doubled := false |}
  /\ str_eqb (str_of "..") key = false.




Definition only_io (w : world) (root : Path) (r : outcome unit) : Prop :=
  match r with
  | Ret _ => True
  | Raise e => os_error e = true
  | Unsupported => locate w root = None
  end.

(** The lines [print_tree] prints for a list of names. *)
Definition tree_lines (names : list str) : list str :=
  match unpack_last names with
  | None => []
  | Some (init, last) =>
      List.map (app (tree_prefix false)) init ++ [tree_prefix true ++ last]
  end.

(** What [main] prints before it asks for confirmation. *)
Definition plan_text (a : args) : str :=
  ((msg_plan ++ str_of " "
    ++ path_str (path_join (dir a) (component_name a)) ++ [SLASH]) ++ [NL])
  ++ unlines (tree_lines (List.map fst (get_templates (simple a))))
  ++ (msg_overwrite ++ [NL]).

(** What [main] does once the confirmation is passed. *)
Definition proceed (a : args) : io unit :=
  make_component (component_name a) (dir a) (get_templates (simple a)) ;;;
  print msg_done.

(** The rest of [main] after the plan has been printed. *)
Definition after_plan (ucd : UnicodeData) (a : args) : io unit :=
  cancel <- (if negb (skip_confirm a) then
               yes <- confirm ucd msg_prompt (str_of "s") ;;
               ret (negb yes)
             else ret false) ;;
  (if cancel then
     print msg_cancelled ;;;
     raise (SystemExit 0)
   else ret tt) ;;;
  proceed a.

Definition is_file (fs : gmap (list str) node) (p : list str) : bool :=
  match fs !! p with
  | Some (File _) => true
  | _ => false
  end.

Definition file_contains (fs : gmap (list str) node) (p : list str)
    (sub : str) : bool :=
  match fs !! p with
  | Some (File data) => contains sub data
  | _ => false
  end.

Definition button_args (skip simple : bool) : args :=
  {| dir := default_dir; component_name := str_of "Button";
     skip_confirm := skip; simple := simple |}.

Definition answering (line : str) : world :=
  {| files := ∅; cwd := []; stdin := [line]; stdout := []; stderr := [] |}.

(** An input of two lines, the first of them a refusal. *)
Definition two_lines : world :=
  {| files := ∅; cwd := []; stdin := [str_of "n"; str_of "later"];
     stdout := []; stderr := [] |}.

(** A base directory two levels down, for examples. *)
Definition deep_dir : Path :=
  {| anchored := false; parts := [str_of "src"; str_of "ui"]; doubled := false |}.


(** Only the files of the world differ. *)
Definition same_streams (w w' : world) : Prop :=
  w' = set_files (files w') w.

#[global] Instance node_eq_dec : EqDecision node.
Proof. solve_decision. Defined.

(** A file with some content, in the root of the file system. *)
Definition old_file : list str := [str_of "index.js"].

Definition old_world : world :=
  set_files (<[old_file := File (str_of "old")]> ∅) empty_world.

Definition root_dir : Path := {| anchored := true; parts := []; doubled := false |}.



(** The world [v] with the file system and working directory of [w]. *)
Definition with_fs (w v : world) : world :=
  {| files := files w; cwd := cwd w; stdin := stdin v;
     stdout := stdout v; stderr := stderr v |}.

(** A computation that looks at the file system and working directory
    only, and changes the file system only. *)
Definition fs_only {A} (c : io A) : Prop :=
  forall w v, c (with_fs w v) = (fst (c w), with_fs (snd (c w)) v).

(** * Properties *)

(** ** The name validator *)

Section Validator.

Variable ucd : UnicodeData.

Lemma ends_nl_cons c d s : ends_nl (c :: d :: s) = ends_nl (d :: s).
Proof. reflexivity. Qed.

(** A greedy starred set followed by [$]: the set matches the whole rest of
    the string, or the rest up to a final line feed. *)
Lemma many_eol (p : N -> bool) (s : str) (start : bool) :
  re_run [Many p; Eol] start s
  = forallb p s || (ends_nl s && forallb p (removelast s)).
Proof.
  revert start. induction s as [|c s IH]; intros start.
  - reflexivity.
  - change (re_run [Many p; Eol] start (c :: s))
      with ((p c && re_run [Many p; Eol] false s)
            || (at_eol (c :: s) && true)).
    rewrite IH. destruct s as [|d s].
    + cbn. destruct (p c), (c =? NL); reflexivity.
    + rewrite ends_nl_cons.
      change (removelast (c :: d :: s)) with (c :: removelast (d :: s)).
      change (at_eol (c :: d :: s)) with false.
      cbn [forallb]. generalize (forallb p (removelast (d :: s))).
      generalize (ends_nl (d :: s)).
      destruct (p c), (p d), (forallb p s); intros [] []; reflexivity.
Qed.

(** What the validator computes, for every string. *)
Lemma is_component_name_eq (name : str) :
  is_component_name ucd name =
  match name with
  | [] => false
  | c :: rest =>
      is_upper c
      && (forallb (re_word ucd) rest
          || (ends_nl rest && forallb (re_word ucd) (removelast rest)))
  end.
Proof.
  destruct name as [|c rest]; [reflexivity|].
  unfold is_component_name, re_match, component_name_re.
  change (re_run [Bol; OneOf is_upper; Many (re_word ucd); Eol] true (c :: rest))
    with (true && (is_upper c && re_run [Many (re_word ucd); Eol] false rest)).
  rewrite many_eol. reflexivity.
Qed.

Lemma ends_nl_tail c rest : ends_nl (c :: rest) = false -> ends_nl rest = false.
Proof. destruct rest; [reflexivity | now rewrite ends_nl_cons]. Qed.

Lemma re_word_ascii c : is_ascii c = true -> re_word ucd c = ascii_word c.
Proof. intros H. unfold re_word, ascii_word, isalnum. now rewrite H. Qed.

Lemma forallb_re_word_ascii s :
  forallb is_ascii s = true -> forallb (re_word ucd) s = forallb ascii_word s.
Proof.
  induction s as [|c s IH]; cbn; [reflexivity|].
  intros [Hc Hs]%andb_true_iff. now rewrite re_word_ascii, IH.
Qed.

Lemma forallb_with_space (s : str) :
  In 32 s -> forallb (re_word ucd) s = false.
Proof.
  induction s as [|c s IH]; cbn [forallb In]; [tauto|].
  intros [Hc|H]; [now subst c|].
  rewrite IH by assumption. apply andb_false_r.
Qed.

Lemma space_before_nl (s : str) :
  In 32 s -> ends_nl s && forallb (re_word ucd) (removelast s) = false.
Proof.
  induction s as [|c s IH]; [cbn; tauto|].
  destruct s as [|d s].
  - intros [Hc|[]]. now subst c.
  - rewrite ends_nl_cons.
    change (removelast (c :: d :: s)) with (c :: removelast (d :: s)).
    cbn [forallb]. intros [Hc|H].
    + subst c. change (re_word ucd 32) with false. cbn. apply andb_false_r.
    + specialize (IH H). destruct (ends_nl (d :: s)); cbn in *;
        [now rewrite IH, andb_false_r | reflexivity].
Qed.

End Validator.

(** C1, as the code has it.  A name that is empty, contains a space or does
    not start with an uppercase ASCII letter is rejected.  A name that does
    not end in a line feed is accepted exactly when its first character is
    an uppercase ASCII letter and every later character is a word character
    of the regular expression engine; when the name is ASCII these are the
    ASCII letters, digits and the underscore, and the validator agrees with
    the specification. *)
Theorem is_component_name_amended (ucd : UnicodeData) (name : str) :
  (name = [] \/ In 32 name \/ (exists c rest, name = c :: rest /\ is_upper c = false)
   -> is_component_name ucd name = false)
  /\ (ends_nl name = false ->
      is_component_name ucd name
      = match name with
        | [] => false
        | c :: rest => is_upper c && forallb (re_word ucd) rest
        end
      /\ (forallb is_ascii name = true ->
          is_component_name ucd name = spec_is_valid_name name)).
Proof.
  rewrite is_component_name_eq. split.
  - intros [->|[Hsp|(c & rest & -> & Hc)]]; [reflexivity| |now rewrite Hc].
    destruct name as [|c rest]; [reflexivity|].
    destruct Hsp as [Hc|Hsp]; [now subst c|].
    rewrite forallb_with_space, space_before_nl by assumption.
    apply andb_false_r.
  - intros Hnl. destruct name as [|c rest]; [split; reflexivity|].
    apply ends_nl_tail in Hnl. rewrite Hnl, orb_false_r. split; [reflexivity|].
    cbn [forallb spec_is_valid_name]. intros [_ Hr]%andb_true_iff.
    now rewrite forallb_re_word_ascii.
Qed.

Lemma is_component_name_amended_witness :
  is_component_name ascii_only (str_of "Button") = true
  /\ is_component_name ascii_only (str_of "my button") = false.
Proof.
  split.
  - pose proof (is_component_name_amended ascii_only (str_of "Button")) as [_ H].
    destruct (H eq_refl) as [_ Hs]. rewrite Hs; reflexivity.
  - apply (proj1 (is_component_name_amended ascii_only (str_of "my button"))).
    right; left. vm_compute. tauto.
Defined.

(** C1 as stated fails: a name with a final line feed is accepted, because
    [$] also matches just before it; and a later character may be any
    alphanumeric character of Unicode, for instance U+00E9. *)
Lemma is_component_name_not_ascii_only :
  (forall ucd, is_component_name ucd [65; NL] = true)
  /\ spec_is_valid_name [65; NL] = false
  /\ (forall ucd, alnum_hi ucd 233 = true -> is_component_name ucd [67; 233] = true)
  /\ spec_is_valid_name [67; 233] = false.
Proof.
  repeat split.
  intros ucd H. rewrite is_component_name_eq. cbn.
  unfold re_word, isalnum. cbn. now rewrite H.
Qed.

(** ** The template registry *)

(** C4: the keys of the two template sets, in order. *)
Theorem get_templates_keys :
  List.map fst (get_templates false)
  = [str_of "index.js"; str_of "Actions.js"; str_of "View.js";
     str_of "styles.module.css"]
  /\ List.map fst (get_templates true)
     = [str_of "index.js"; str_of "styles.module.css"].
Proof. split; reflexivity. Qed.

(** ** The renderer *)

Lemma format_literal (name : str) (c : N) (rest : str) :
  is_brace c = false ->
  format_from name InText (c :: rest)
  = prepend [c] (format_from name InText rest).
Proof.
  unfold is_brace. intros [Ho Hc]%orb_false_iff.
  cbn [format_from]. now rewrite Ho, Hc.
Qed.

Lemma format_open (name rest : str) :
  format_from name InText (LBRACE :: LBRACE :: rest)
  = prepend [LBRACE] (format_from name InText rest).
Proof. reflexivity. Qed.

Lemma format_close (name rest : str) :
  format_from name InText (RBRACE :: RBRACE :: rest)
  = prepend [RBRACE] (format_from name InText rest).
Proof. reflexivity. Qed.

Lemma format_name_field (name rest : str) :
  format_from name InText (str_of "{name}" ++ rest)
  = prepend name (format_from name InText rest).
Proof. reflexivity. Qed.

(** The scanner on a template made of pieces. *)
Lemma format_source (name : str) (ps : list piece) :
  forallb piece_ok ps = true ->
  format (source ps) name = Ret (expand name ps).
Proof.
  unfold format. induction ps as [|p ps IH]; [reflexivity|].
  cbn [forallb]. intros [Hp Hps]%andb_true_iff. specialize (IH Hps).
  unfold source, expand in *. cbn [flat_map].
  destruct p; cbn [piece_source piece_value].
  - cbn [piece_ok] in Hp. apply negb_true_iff in Hp.
    cbn [app]. rewrite format_literal, IH by assumption. reflexivity.
  - cbn [app]. rewrite format_open, IH. reflexivity.
  - cbn [app]. rewrite format_close, IH. reflexivity.
  - rewrite format_name_field, IH. reflexivity.
Qed.

Lemma starts_with_split (sub s : str) :
  starts_with sub s = true -> s = sub ++ List.skipn (length sub) s.
Proof.
  revert s. induction sub as [|a sub IH]; intros s; [reflexivity|].
  destruct s as [|b s]; [discriminate|]. cbn [starts_with].
  intros [Hab%N.eqb_eq Hs]%andb_true_iff. subst b.
  cbn [length List.skipn app]. f_equal. now apply IH.
Qed.

(** Reading a template into pieces is sound. *)
Lemma pieces_from_sound (t : str) :
  forall skip ps, pieces_from skip t = Some ps ->
    forallb piece_ok ps = true /\ source ps = List.skipn skip t.
Proof.
  induction t as [|c t IH]; intros skip ps.
  - destruct skip; cbn; [|discriminate]. intros [= <-]. split; reflexivity.
  - destruct skip as [|k].
    + cbn [pieces_from List.skipn].
      destruct (starts_with (str_of "{name}") (c :: t)) eqn:Hn.
      { destruct (pieces_from 5 t) as [ps'|] eqn:E; [|discriminate].
        intros [= <-]. destruct (IH _ _ E) as [Hok Hsrc]. split; [exact Hok|].
        change (source (NameField :: ps')) with (str_of "{name}" ++ source ps').
        rewrite Hsrc. symmetry. exact (starts_with_split _ _ Hn). }
      destruct (starts_with [LBRACE; LBRACE] (c :: t)) eqn:Ho.
      { destruct (pieces_from 1 t) as [ps'|] eqn:E; [|discriminate].
        intros [= <-]. destruct (IH _ _ E) as [Hok Hsrc]. split; [exact Hok|].
        change (source (LBr :: ps')) with ([LBRACE; LBRACE] ++ source ps').
        rewrite Hsrc. symmetry. exact (starts_with_split _ _ Ho). }
      destruct (starts_with [RBRACE; RBRACE] (c :: t)) eqn:Hc.
      { destruct (pieces_from 1 t) as [ps'|] eqn:E; [|discriminate].
        intros [= <-]. destruct (IH _ _ E) as [Hok Hsrc]. split; [exact Hok|].
        change (source (RBr :: ps')) with ([RBRACE; RBRACE] ++ source ps').
        rewrite Hsrc. symmetry. exact (starts_with_split _ _ Hc). }
      destruct (is_brace c) eqn:Hb; [discriminate|].
      destruct (pieces_from 0 t) as [ps'|] eqn:E; [|discriminate].
      intros [= <-]. destruct (IH _ _ E) as [Hok Hsrc]. split.
      * cbn [forallb piece_ok]. now rewrite Hb, Hok.
      * change (source (Lit c :: ps')) with (c :: source ps').
        now rewrite Hsrc.
    + cbn [pieces_from List.skipn]. apply IH.
Qed.

Lemma pieces_sound (t : str) (ps : list piece) :
  pieces t = Some ps -> forallb piece_ok ps = true /\ source ps = t.
Proof. apply (pieces_from_sound t 0 ps). Qed.

Lemma render_template_open (file : list str) (t name old out : str) (w : world) :
  format t name = Ret out ->
  files w !! file = Some (File old) ->
  render_template file t name w
  = (Ret tt, set_files (<[file := File (old ++ out)]> (files w)) w).
Proof.
  intros Hf Hw. unfold render_template, file_write. now rewrite Hf, Hw.
Qed.

(** C2, as the code has it.  On a template in which every brace belongs to
    a field [{name}] or to a doubled brace, the renderer writes the template
    with every field replaced by the name and every doubled brace by a
    single one; every other character is written as it is. *)
Theorem render_template_amended
    (file : list str) (name old : str) (ps : list piece) (w : world) :
  forallb piece_ok ps = true ->
  files w !! file = Some (File old) ->
  render_template file (source ps) name w
  = (Ret tt, set_files (<[file := File (old ++ expand name ps)]> (files w)) w).
Proof.
  intros Hok Hw. apply render_template_open; [|exact Hw].
  now apply format_source.
Qed.

Lemma render_template_amended_witness :
  source demo_pieces = str_of "<{name} x={{1}} />"
  /\ render_template scratch_file (source demo_pieces) (str_of "Foo") scratch_world
     = (Ret tt,
        set_files (<[scratch_file := File (str_of "<Foo x={1} />")]>
                     (files scratch_world)) scratch_world).
Proof.
  split; [reflexivity|].
  apply (render_template_amended scratch_file (str_of "Foo") [] demo_pieces);
    reflexivity.
Defined.

(** C2 as stated fails: a doubled brace of the template is written as a
    single brace, so characters outside the fields are not all kept.  The
    [Actions.js] template of the script is such a template. *)
Lemma render_template_unescapes :
  render_template scratch_file (str_of "{{ }}") (str_of "Foo") scratch_world
  = (Ret tt, set_files (<[scratch_file := File (str_of "{ }")]> ∅) empty_world)
  /\ spec_render (str_of "{{ }}") (str_of "Foo") = str_of "{{ }}"
  /\ format ACTIONS (str_of "Foo") <> Ret (spec_render ACTIONS (str_of "Foo")).
Proof.
  split; [|split].
  - vm_compute. reflexivity.
  - reflexivity.
  - vm_compute. discriminate.
Qed.

(** ** Totality of rendering on the script's templates *)

Lemma renders_of_pieces (name key t : str) (ps : list piece) :
  pieces t = Some ps -> renders name (key, t).
Proof.
  intros H. exists ps. destruct (pieces_sound t ps H) as [Hok Hsrc].
  cbn [snd]. repeat split; try assumption.
  rewrite <- Hsrc at 1. now apply format_source.
Qed.

Lemma get_templates_render (simple : bool) (name : str) :
  Forall (renders name) (get_templates simple).
Proof.
  destruct simple; unfold get_templates; repeat constructor;
    match goal with
    | |- renders _ (_, ?t) =>
        let r := eval vm_compute in (pieces t) in
        match r with
        | Some ?ps => apply (renders_of_pieces name _ t ps); vm_compute; reflexivity
        end
    end.
Qed.

Lemma walk_error fs comps : forall cur k e,
  walk fs cur k comps = inl e -> os_error e = true.
Proof.
  induction comps as [|c comps IH]; intros cur k e; cbn [walk];
    [discriminate|].
  destruct k; [|intros [= <-]; reflexivity].
  destruct (name_fits c); cbn [negb]; [|intros [= <-]; reflexivity].
  destruct (fs !! (cur ++ [c])) eqn:E; [apply IH|intros [= <-]; reflexivity].
Qed.

Lemma locate_join_plain (w : world) (root : Path) (key : str) :
  plain_key key ->
  locate w (path_join root key)
  = option_map (fun l => l ++ [key]) (locate w root).
Proof.
  intros [Hp Hk]. unfold path_join. rewrite Hp. cbn [anchored parts].
  unfold locate. cbn [anchored parts].
  destruct (anchored root).
  - rewrite existsb_app. cbn [existsb]. rewrite Hk, !orb_false_r.
    now destruct (existsb _ (parts root)).
  - rewrite app_assoc, existsb_app. cbn [existsb]. rewrite Hk, !orb_false_r.
    now destruct (existsb _ (cwd w ++ parts root)).
Qed.

Lemma get_templates_plain (simple : bool) :
  Forall (fun item => plain_key (fst item)) (get_templates simple).
Proof.
  destruct simple; unfold get_templates; repeat constructor.
Qed.

Lemma locate_cwd (w w' : world) (p : Path) :
  cwd w' = cwd w -> locate w' p = locate w p.
Proof. intros H. unfold locate. now rewrite H. Qed.

Lemma open_w_cases (p : Path) (w : world) :
  match open_w p w with
  | (Ret lp, w') =>
      locate w p = Some lp /\ files w' !! lp = Some (File [])
      /\ cwd w' = cwd w
  | (Raise e, _) => os_error e = true
  | (Unsupported, _) => locate w p = None
  end.
Proof.
  unfold open_w. destruct (locate w p) as [[|c lp]|]; try reflexivity.
  destruct (stat _ _) as [e|[|d]] eqn:Hs;
    [now apply walk_error in Hs| |reflexivity].
  destruct (name_fits (List.last (c :: lp) [])); cbn [negb]; [|reflexivity].
  destruct (files w !! (c :: lp)) as [[|d]|]; try reflexivity.
  all: cbn [files set_files cwd]; now rewrite lookup_insert_eq.
Qed.

Lemma only_io_cwd (w w' : world) (root : Path) (r : outcome unit) :
  cwd w' = cwd w -> only_io w' root r -> only_io w root r.
Proof.
  intros H. destruct r; cbn; try tauto. now rewrite (locate_cwd w w' root H).
Qed.

Lemma write_items_only_io (root : Path) (name : str) (items : list (str * str)) :
  Forall (renders name) items ->
  Forall (fun item => plain_key (fst item)) items ->
  forall w, only_io w root (fst (write_items root name items w)).
Proof.
  induction items as [|[key t] items IH]; intros Hr Hp w; [exact I|].
  inversion Hr as [|? ? (ps & _ & _ & _ & Hfmt) Hr']; subst.
  inversion Hp as [|? ? Hkey Hp']; subst. cbn [fst snd] in *.
  cbn [write_items]. unfold bind at 1.
  pose proof (open_w_cases (path_join root key) w) as Ho.
  rewrite (locate_join_plain w root key Hkey) in Ho.
  destruct (open_w (path_join root key) w) as [[lp|e|] w1].
  - destruct Ho as (_ & Hlp & Hcwd). unfold bind at 1.
    rewrite (render_template_open lp t name [] _ w1 Hfmt Hlp).
    set (w2 := set_files _ w1).
    apply (only_io_cwd w w2 root); [exact Hcwd|].
    apply (IH Hr' Hp').
  - exact Ho.
  - cbn. destruct (locate w root); [discriminate|reflexivity].
Qed.

(** C10: whatever the component name, each template of either set is made
    of literal characters, doubled braces and [{name}] fields only, and
    formatting it returns a string; the loop that writes them can therefore
    end only normally or with an error of the file system. *)
Theorem templates_always_render (simple : bool) (name : str) :
  Forall (renders name) (get_templates simple)
  /\ forall (root : Path) (w : world),
       only_io w root (fst (write_items root name (get_templates simple) w)).
Proof.
  split; [apply get_templates_render|].
  intros root w. apply write_items_only_io;
    [apply get_templates_render | apply get_templates_plain].
Qed.

(** ** The entry point *)

Lemma main_bad_name (ucd : UnicodeData) (a : args) (w : world) :
  is_component_name ucd (component_name a) = false ->
  main ucd a w = (Raise (SystemExit 1), put_stderr (msg_bad_name ++ [NL]) w).
Proof. intros H. unfold main, bind. rewrite H. reflexivity. Qed.

(** C5: when the validator rejects the name, [main] prints the diagnostic
    on the error stream and exits with status 1; nothing is printed on the
    standard output and the file system is as it was. *)
Theorem main_rejects_bad_name (ucd : UnicodeData) (a : args) (w : world) :
  is_component_name ucd (component_name a) = false ->
  exit_status (fst (main ucd a w)) = Some 1%Z
  /\ stderr (snd (main ucd a w)) = stderr w ++ msg_bad_name ++ [NL]
  /\ stdout (snd (main ucd a w)) = stdout w
  /\ files (snd (main ucd a w)) = files w.
Proof. intros H. rewrite (main_bad_name ucd a w H). repeat split. Qed.

Lemma main_rejects_bad_name_witness :
  is_component_name ascii_only (str_of "button") = false
  /\ exit_status
       (fst (main ascii_only
               {| dir := default_dir; component_name := str_of "button";
                  skip_confirm := true; simple := false |} empty_world))
     = Some 1%Z.
Proof.
  split; [reflexivity|].
  apply (main_rejects_bad_name ascii_only
           {| dir := default_dir; component_name := str_of "button";
              skip_confirm := true; simple := false |} empty_world).
  reflexivity.
Defined.

(** ** The file tree *)

Lemma put_stdout_nil (w : world) : put_stdout [] w = w.
Proof. destruct w. unfold put_stdout. cbn. now rewrite app_nil_r. Qed.

Lemma put_stdout_twice (a b : str) (w : world) :
  put_stdout b (put_stdout a w) = put_stdout (a ++ b) w.
Proof. unfold put_stdout. cbn. now rewrite app_assoc. Qed.

Lemma for_each_print (pre : str) (l : list str) (w : world) :
  for_each l (fun f => print (pre ++ f)) w
  = (Ret tt, put_stdout (unlines (List.map (app pre) l)) w).
Proof.
  revert w. induction l as [|x l IH]; intros w.
  - cbn. now rewrite put_stdout_nil.
  - cbn [for_each]. unfold bind, print at 1. rewrite IH, put_stdout_twice.
    reflexivity.
Qed.

Lemma unpack_last_snoc {A} (l : list A) (x : A) :
  unpack_last (l ++ [x]) = Some (l, x).
Proof. unfold unpack_last. now rewrite rev_unit, rev_involutive. Qed.

Lemma unlines_app (a b : list str) : unlines (a ++ b) = unlines a ++ unlines b.
Proof. apply flat_map_app. Qed.

Lemma print_tree_output (names : list str) (w : world) :
  names <> [] ->
  print_tree names w = (Ret tt, put_stdout (unlines (tree_lines names)) w).
Proof.
  intros Hne. destruct (exists_last Hne) as (l & x & ->).
  unfold print_tree, tree_lines. rewrite unpack_last_snoc.
  unfold bind. rewrite for_each_print. unfold print.
  rewrite put_stdout_twice, unlines_app. cbn. now rewrite app_nil_r.
Qed.

(** C8: for a list of names that is not empty, [print_tree] prints one line
    per name, in the order of the list; the line of the last name starts
    with the closing mark, every other line with the branching mark. *)
Theorem print_tree_prefixes (names : list str) (w : world) :
  names <> [] ->
  print_tree names w = (Ret tt, put_stdout (unlines (tree_lines names)) w)
  /\ length (tree_lines names) = length names
  /\ forall i name, nth_error names i = Some name ->
       nth_error (tree_lines names) i
       = Some ((if (S i =? length names)%nat
                then str_of "    \---- " else str_of "    |---- ") ++ name).
Proof.
  intros Hne. split; [now apply print_tree_output|].
  destruct (exists_last Hne) as (l & x & ->).
  unfold tree_lines. rewrite unpack_last_snoc. split.
  - rewrite !length_app, length_map. reflexivity.
  - intros i name Hi. rewrite length_app. cbn [length].
    destruct (Nat.lt_ge_cases i (length l)) as [Hlt|Hge].
    + rewrite nth_error_app1 in Hi by assumption.
      rewrite nth_error_app1 by now rewrite length_map.
      rewrite (map_nth_error _ _ _ Hi).
      destruct (Nat.eqb_spec (S i) (length l + 1)); [lia|reflexivity].
    + rewrite nth_error_app2 in Hi by assumption.
      rewrite nth_error_app2 by now rewrite length_map.
      rewrite length_map.
      destruct (i - length l)%nat as [|k] eqn:E; cbn in Hi;
        [|now destruct k].
      injection Hi as <-.
      destruct (Nat.eqb_spec (S i) (length l + 1)); [reflexivity|lia].
Qed.

Lemma print_tree_prefixes_witness :
  print_tree (List.map fst (get_templates true)) empty_world
  = (Ret tt,
     put_stdout (str_of "    |---- index.js" ++ [NL]
                 ++ str_of "    \---- styles.module.css" ++ [NL]) empty_world).
Proof.
  apply (print_tree_prefixes (List.map fst (get_templates true)) empty_world).
  discriminate.
Defined.

(** ** Confirmation *)

Lemma main_valid_name (ucd : UnicodeData) (a : args) (w : world) :
  is_component_name ucd (component_name a) = true ->
  main ucd a w = after_plan ucd a (put_stdout (plan_text a) w).
Proof.
  intros H. unfold main. unfold bind at 1. rewrite H. cbn [negb ret].
  unfold bind at 1. unfold print at 1.
  unfold bind at 1. rewrite print_tree_output by (now destruct (simple a)).
  unfold bind at 1. unfold print at 1.
  rewrite !put_stdout_twice. reflexivity.
Qed.

Lemma casefold_ascii_one (ucd : UnicodeData) (line : str) :
  forallb is_ascii line = true ->
  casefold ucd line = str_of "s" <-> line = str_of "s" \/ line = str_of "S".
Proof.
  intros Ha. destruct line as [|c [|d line]].
  - cbn. split; [discriminate|intros [|]; discriminate].
  - cbn in Ha. rewrite andb_true_r in Ha.
    unfold casefold. cbn [flat_map]. unfold casefold_char. rewrite Ha.
    rewrite app_nil_r. split.
    + intros [= Hc]. unfold is_upper in Hc.
      destruct (65 <=? c) eqn:E1, (c <=? 90) eqn:E2; cbn in Hc;
        apply N.leb_le in E1 || apply N.leb_gt in E1;
        apply N.leb_le in E2 || apply N.leb_gt in E2.
      * right. change (str_of "S") with [83]. f_equal. lia.
      * left. now subst c.
      * left. now subst c.
      * left. now subst c.
    + intros [[= ->]|[= ->]]; reflexivity.
  - cbn in Ha. apply andb_true_iff in Ha as [Hc Ha].
    apply andb_true_iff in Ha as [Hd _].
    unfold casefold. cbn [flat_map]. unfold casefold_char. rewrite Hc, Hd.
    split; [discriminate|intros [|]; discriminate].
Qed.

(** C3, as the code has it.  With a valid name: under the skip flag [main]
    goes on to write the files without reading the input; without it, one
    line is read and [main] goes on exactly when the case-folded line is
    the token [s] (for an ASCII line: when the line is [s] or [S], white
    space included in the comparison); otherwise it prints the
    cancellation message and exits with status 0, the file system
    untouched. *)
Theorem main_confirmation_amended (ucd : UnicodeData) (a : args) (w : world) :
  is_component_name ucd (component_name a) = true ->
  (skip_confirm a = true ->
     main ucd a w = proceed a (put_stdout (plan_text a) w)
     /\ stdin (put_stdout (plan_text a) w) = stdin w)
  /\ (skip_confirm a = false -> forall line rest, stdin w = line :: rest ->
        let asked :=
          drop_line (put_stdout msg_prompt (put_stdout (plan_text a) w)) in
        (forallb is_ascii line = true ->
           casefold ucd line = str_of "s"
           <-> line = str_of "s" \/ line = str_of "S")
        /\ (casefold ucd line = str_of "s" -> main ucd a w = proceed a asked)
        /\ (casefold ucd line <> str_of "s" ->
              main ucd a w
              = (Raise (SystemExit 0), put_stdout (msg_cancelled ++ [NL]) asked)
              /\ exit_status (fst (main ucd a w)) = Some 0%Z
              /\ files (snd (main ucd a w)) = files w)).
Proof.
  intros Hname. rewrite (main_valid_name ucd a w Hname). split.
  - intros Hskip. split; [|reflexivity].
    unfold after_plan. rewrite Hskip. reflexivity.
  - intros Hskip line rest Hin asked.
    split; [apply casefold_ascii_one|].
    assert (Hstep : forall b,
               str_eqb (casefold ucd line) (casefold ucd (str_of "s")) = b ->
               after_plan ucd a (put_stdout (plan_text a) w)
               = (if b then proceed a asked
                  else (Raise (SystemExit 0),
                        put_stdout (msg_cancelled ++ [NL]) asked))).
    { intros b Hb. unfold after_plan. rewrite Hskip. cbn [negb].
      unfold bind at 1. unfold bind at 1. unfold confirm, bind at 1.
      unfold input. cbn [stdin put_stdout]. rewrite Hin.
      unfold ret at 1. rewrite Hb. destruct b; reflexivity. }
    split.
    + intros Hs. apply (Hstep true). apply bool_decide_eq_true_2. exact Hs.
    + intros Hs.
      rewrite (Hstep false) by (apply bool_decide_eq_false_2; exact Hs).
      repeat split.
Qed.

Lemma main_confirmation_amended_witness :
  main ascii_only (button_args false true) (answering (str_of "S"))
  = proceed (button_args false true)
      (drop_line
         (put_stdout msg_prompt
            (put_stdout (plan_text (button_args false true))
               (answering (str_of "S")))))
  /\ files (snd (main ascii_only (button_args false true)
                   (answering (str_of "n")))) = ∅.
Proof.
  split.
  - pose proof (main_confirmation_amended ascii_only (button_args false true)
                  (answering (str_of "S")) eq_refl) as [_ H].
    destruct (H eq_refl (str_of "S") [] eq_refl) as (_ & Hyes & _).
    apply Hyes. reflexivity.
  - pose proof (main_confirmation_amended ascii_only (button_args false true)
                  (answering (str_of "n")) eq_refl) as [_ H].
    destruct (H eq_refl (str_of "n") [] eq_refl) as (_ & _ & Hno).
    apply Hno. discriminate.
Defined.

(** C3 as stated fails: the line is not trimmed.  The answer [s] followed by
    a space is the token once trimmed, yet [main] cancels: it exits with
    status 0 and writes nothing. *)
Lemma main_does_not_trim :
  spec_confirms (str_of "s ") = true
  /\ forall ucd,
       main ucd (button_args false false) (answering (str_of "s "))
       = (Raise (SystemExit 0),
          put_stdout (msg_cancelled ++ [NL])
            (drop_line
               (put_stdout msg_prompt
                  (put_stdout (plan_text (button_args false false))
                     (answering (str_of "s "))))))
       /\ files (snd (main ucd (button_args false false)
                        (answering (str_of "s ")))) = ∅.
Proof.
  split; [reflexivity|]. intros ucd. split; vm_compute; reflexivity.
Qed.

(** ** The first scenario *)

(** C6: [main] for the name [Button], the default directory, the skip flag
    and the full template set, run where nothing exists yet, ends with
    status 0 and leaves a directory [Button] with exactly four entries, all
    files, under the four names of the registry; [index.js] contains the
    two expected lines. *)
Theorem scenario_button (ucd : UnicodeData) :
  let out := main ucd (button_args true false) empty_world in
  let fs := files (snd out) in
  let button := [str_of "Button"] in
  exit_status (fst out) = Some 0%Z
  /\ fs !! button = Some Dir
  /\ length (listdir fs button) = 4%nat
  /\ forallb (fun key => is_file fs (button ++ [key]))
       [str_of "index.js"; str_of "Actions.js"; str_of "View.js";
        str_of "styles.module.css"] = true
  /\ file_contains fs (button ++ [str_of "index.js"])
       (str_of "const Button = (props) => (") = true
  /\ file_contains fs (button ++ [str_of "index.js"])
       (str_of "Button.displayName = 'Button'") = true.
Proof. vm_compute. repeat split. Qed.

(** ** The file system *)

Lemma set_files_same (w : world) : set_files (files w) w = w.
Proof. now destruct w. Qed.

Lemma walk_app fs (a b : list str) : forall cur k,
  walk fs cur k (a ++ b)
  = match walk fs cur k a with
    | inl e => inl e
    | inr k' => walk fs (cur ++ a) k' b
    end.
Proof.
  induction a as [|c a IH]; intros cur k.
  - cbn. now rewrite app_nil_r.
  - cbn [app walk]. destruct k; [|reflexivity].
    destruct (name_fits c); cbn [negb]; [|reflexivity].
    destruct (fs !! (cur ++ [c])); [|reflexivity].
    rewrite IH, <- app_assoc. reflexivity.
Qed.

Lemma same_kind_dir (k : node) : same_kind Dir k = true -> k = Dir.
Proof. now destruct k. Qed.

Lemma same_kind_trans (a b c : node) :
  same_kind a b = true -> same_kind b c = true -> same_kind a c = true.
Proof. now destruct a, b, c. Qed.

Lemma walk_extends fs g (comps : list str) : forall cur k k2 k',
  extends fs g -> same_kind k k2 = true ->
  walk fs cur k comps = inr k' ->
  exists k2', walk g cur k2 comps = inr k2' /\ same_kind k' k2' = true.
Proof.
  induction comps as [|c comps IH]; intros cur k k2 k' He Hk.
  - cbn. intros [= <-]. now exists k2.
  - cbn [walk]. destruct k; [|discriminate].
    apply same_kind_dir in Hk. subst k2.
    destruct (name_fits c); cbn [negb]; [|discriminate].
    destruct (fs !! (cur ++ [c])) as [a|] eqn:E; [|discriminate].
    destruct (He _ _ E) as (b & -> & Hab). intros Hw.
    exact (IH _ _ _ _ He Hab Hw).
Qed.

Lemma stat_extends_dir fs g (p : list str) :
  extends fs g -> stat fs p = inr Dir -> stat g p = inr Dir.
Proof.
  intros He Hs. destruct (walk_extends fs g p [] Dir Dir Dir He eq_refl Hs)
    as (k & Hk & ->%same_kind_dir). exact Hk.
Qed.

Lemma stat_extends fs g (p : list str) (k : node) :
  extends fs g -> stat fs p = inr k -> exists k', stat g p = inr k'.
Proof.
  intros He Hs. destruct (walk_extends fs g p [] Dir Dir k He eq_refl Hs)
    as (k' & Hk & _). now exists k'.
Qed.

Lemma extends_refl fs : extends fs fs.
Proof. intros p a H. exists a. split; [exact H|now destruct a]. Qed.

Lemma extends_trans f g h : extends f g -> extends g h -> extends f h.
Proof.
  intros Hfg Hgh p a Ha. destruct (Hfg _ _ Ha) as (b & Hb & Hab).
  destruct (Hgh _ _ Hb) as (c & Hc & Hbc). exists c.
  split; [exact Hc|exact (same_kind_trans _ _ _ Hab Hbc)].
Qed.

Lemma extends_insert_new fs (p : list str) (k : node) :
  fs !! p = None -> extends fs (<[p := k]> fs).
Proof.
  intros Hn q a Hq. exists a. split; [|now destruct a].
  rewrite lookup_insert_ne; [exact Hq|congruence].
Qed.

Lemma extends_write fs g (p : list str) (d d' : str) :
  extends fs g -> extends (<[p := File d]> fs) (<[p := File d']> g).
Proof.
  intros He q a. destruct (decide (p = q)) as [->|Hne].
  - rewrite !lookup_insert_eq. intros [= <-]. now exists (File d').
  - rewrite !lookup_insert_ne by assumption. apply He.
Qed.

Lemma extends_overwrite fs (p : list str) (d : str) :
  fs !! p <> Some Dir -> extends fs (<[p := File d]> fs).
Proof.
  intros Hp q a. destruct (decide (p = q)) as [->|Hne].
  - rewrite lookup_insert_eq. intros Hq. exists (File d).
    split; [reflexivity|]. destruct a; [congruence|reflexivity].
  - rewrite lookup_insert_ne by assumption. intros Hq. exists a.
    split; [exact Hq|now destruct a].
Qed.

Lemma no_new_dirs_refl fs : no_new_dirs fs fs.
Proof. now intros p H. Qed.

Lemma no_new_dirs_trans f g h :
  no_new_dirs f g -> no_new_dirs g h -> no_new_dirs f h.
Proof. intros Hfg Hgh p Hp. apply Hfg, Hgh, Hp. Qed.

Lemma no_new_dirs_write fs g (p : list str) (d d' : str) :
  no_new_dirs fs g -> no_new_dirs (<[p := File d]> fs) (<[p := File d']> g).
Proof.
  intros Hn q. destruct (decide (p = q)) as [->|Hne].
  - rewrite !lookup_insert_eq. discriminate.
  - rewrite !lookup_insert_ne by assumption. apply Hn.
Qed.

Lemma no_new_dirs_overwrite fs (p : list str) (d : str) :
  no_new_dirs fs (<[p := File d]> fs).
Proof.
  intros q. destruct (decide (p = q)) as [->|Hne].
  - rewrite lookup_insert_eq. discriminate.
  - now rewrite lookup_insert_ne by assumption.
Qed.

(** The last step of a resolution. *)
Lemma stat_snoc fs (p : list str) (c : str) :
  stat fs (p ++ [c])
  = match stat fs p with
    | inl e => inl e
    | inr (File _) => inl NotADirectoryError
    | inr Dir =>
        if negb (name_fits c) then inl OSError
        else match fs !! (p ++ [c]) with
             | None => inl FileNotFoundError
             | Some k => inr k
             end
    end.
Proof.
  unfold stat. rewrite walk_app.
  destruct (walk fs [] Dir p) as [e|[|d]]; reflexivity.
Qed.

Lemma stat_last fs (p : list str) :
  p <> [] ->
  stat fs p
  = match stat fs (removelast p) with
    | inl e => inl e
    | inr (File _) => inl NotADirectoryError
    | inr Dir =>
        if negb (name_fits (List.last p [])) then inl OSError
        else match fs !! p with
             | None => inl FileNotFoundError
             | Some k => inr k
             end
    end.
Proof.
  intros Hne. destruct (exists_last Hne) as (q & c & ->).
  rewrite removelast_last, last_last. apply stat_snoc.
Qed.


Lemma stat_after_mkdir fs (p : list str) :
  p <> [] -> stat fs (removelast p) = inr Dir ->
  name_fits (List.last p []) = true -> fs !! p = None ->
  stat (<[p := Dir]> fs) p = inr Dir.
Proof.
  intros Hne Hs Hfit Hn. rewrite (stat_last _ p Hne).
  rewrite (stat_extends_dir fs _ _ (extends_insert_new fs p Dir Hn) Hs).
  now rewrite Hfit, lookup_insert_eq.
Qed.

(** ** The loop of [make_component] *)

Lemma write_items_cons root name (item : str * str) (rest : list (str * str)) w :
  write_items root name (item :: rest) w
  = (write_item root name item ;;; write_items root name rest) w.
Proof.
  destruct item as [key t]. cbn [write_items]. unfold write_item, bind.
  cbn [fst snd]. destruct (open_w (path_join root key) w) as [[lp|e|] w1];
    reflexivity.
Qed.

Lemma write_item_run root name (item : str * str) w (lp : list str) (s : str) :
  locate w (path_join root (fst item)) = Some lp ->
  writable w lp ->
  format (snd item) name = Ret s ->
  write_item root name item w
  = (Ret tt, set_files (<[lp := File s]> (files w)) w).
Proof.
  intros Hl (Hne & Hs & Hd & Hfit) Hf. unfold write_item, bind, open_w.
  rewrite Hl. destruct lp as [|c lp]; [congruence|]. rewrite Hs, Hfit.
  cbn [negb]. unfold render_template, file_write. rewrite Hf.
  destruct (files w !! (c :: lp)) as [[|d]|]; [congruence| |];
    cbn [files set_files]; rewrite lookup_insert_eq, insert_insert_eq;
    reflexivity.
Qed.

Lemma write_item_ret_inv root name (item : str * str) w w2 :
  write_item root name item w = (Ret tt, w2) ->
  exists lp s,
    locate w (path_join root (fst item)) = Some lp
    /\ writable w lp
    /\ format (snd item) name = Ret s
    /\ w2 = set_files (<[lp := File s]> (files w)) w.
Proof.
  intros H0. pose proof H0 as H. unfold write_item, bind, open_w in H.
  destruct (locate w (path_join root (fst item))) as [lp|] eqn:Hl;
    [|discriminate].
  destruct lp as [|c lp]; [discriminate|].
  destruct (stat (files w) (removelast (c :: lp))) as [e|[|d]] eqn:Hs;
    try discriminate.
  destruct (name_fits (List.last (c :: lp) [])) eqn:Hfit; cbn [negb] in H;
    [|discriminate].
  destruct (format (snd item) name) as [s|e|] eqn:Hf.
  - exists (c :: lp), s.
    assert (Hw : writable w (c :: lp)).
    { split; [discriminate|]. split; [exact Hs|]. split; [|exact Hfit].
      intros Hd. rewrite Hd in H. discriminate. }
    rewrite (write_item_run root name item w (c :: lp) s Hl Hw Hf) in H0.
    injection H0 as <-. repeat split; try assumption; apply Hw.
  - unfold render_template in H. rewrite Hf in H.
    destruct (files w !! (c :: lp)) as [[|d]|]; discriminate.
  - unfold render_template in H. rewrite Hf in H.
    destruct (files w !! (c :: lp)) as [[|d]|]; discriminate.
Qed.

Lemma writable_transfer (w : world) (g : gmap (list str) node) (lp : list str) :
  extends (files w) g -> no_new_dirs (files w) g ->
  writable w lp -> writable (set_files g w) lp.
Proof.
  intros He Hn (Hne & Hs & Hd & Hfit). split; [exact Hne|].
  cbn [files set_files].
  split; [exact (stat_extends_dir _ _ _ He Hs)|]. split; [|exact Hfit].
  intros Hg. apply Hd, Hn, Hg.
Qed.

Lemma targets_cons (w : world) (root : Path) (item : str * str) (rest : list (str * str))
    (lp : list str) :
  locate w (path_join root (fst item)) = Some lp ->
  targets w root (item :: rest) = lp :: targets w root rest.
Proof. intros H. unfold targets. cbn [omap list_omap]. now rewrite H. Qed.

(** Running the loop again, from a file system [g] with the same
    directories: it succeeds, writes to its targets what the first run
    wrote, and leaves the rest of [g] alone.  The first run leaves alone
    what is not a target. *)
Lemma write_items_rerun root name (items : list (str * str)) :
  forall w w1,
    write_items root name items w = (Ret tt, w1) ->
    w1 = set_files (files w1) w
    /\ extends (files w) (files w1)
    /\ no_new_dirs (files w) (files w1)
    /\ (forall p, p ∉ targets w root items -> files w1 !! p = files w !! p)
    /\ forall g, extends (files w) g -> no_new_dirs (files w) g ->
         exists g',
           write_items root name items (set_files g w) = (Ret tt, set_files g' w)
           /\ (forall p, p ∈ targets w root items -> g' !! p = files w1 !! p)
           /\ (forall p, p ∉ targets w root items -> g' !! p = g !! p).
Proof.
  induction items as [|item rest IH]; intros w w1 Hrun.
  - cbn in Hrun. injection Hrun as <-.
    split; [now rewrite set_files_same|].
    split; [apply extends_refl|]. split; [apply no_new_dirs_refl|].
    split; [reflexivity|]. intros g _ _. exists g. split; [reflexivity|].
    split; [|reflexivity]. intros p Hp. cbn in Hp. now apply not_elem_of_nil in Hp.
  - rewrite write_items_cons in Hrun. unfold bind in Hrun.
    destruct (write_item root name item w) as [[[]|e|] wm] eqn:Hitem;
      try discriminate.
    destruct (write_item_ret_inv _ _ _ _ _ Hitem)
      as (lp & s & Hl & Hw & Hf & ->).
    set (wm := set_files (<[lp := File s]> (files w)) w) in *.
    destruct (IH wm w1 Hrun) as (Heq & Hext & Hnn & Hframe & Hre).
    assert (Htg : targets wm root rest = targets w root rest) by reflexivity.
    rewrite (targets_cons w root item rest lp Hl).
    pose proof Hw as (Hne & Hs & Hd).
    split; [exact Heq|].
    split.
    { eapply extends_trans; [|exact Hext].
      apply extends_overwrite, Hd. }
    split.
    { eapply no_new_dirs_trans; [|exact Hnn].
      apply no_new_dirs_overwrite. }
    split.
    { intros p Hp. apply not_elem_of_cons in Hp as [Hpl Hp].
      rewrite (Hframe p Hp). cbn [wm files set_files].
      now rewrite lookup_insert_ne by congruence. }
    intros g Hge Hgn.
    destruct (Hre (<[lp := File s]> g)) as (g' & Hrun' & Hin & Hout).
    { apply extends_write, Hge. }
    { apply no_new_dirs_write, Hgn. }
    exists g'. split.
    { rewrite write_items_cons. unfold bind.
      rewrite (write_item_run root name item (set_files g w) lp s Hl
                 (writable_transfer w g lp Hge Hgn Hw) Hf).
      exact Hrun'. }
    split.
    { intros p Hp. destruct (decide (p ∈ targets w root rest)) as [Hr|Hr].
      - apply Hin. exact Hr.
      - apply elem_of_cons in Hp as [->|Hp]; [|contradiction].
        rewrite (Hout lp Hr), (Hframe lp Hr). cbn [wm files set_files].
        now rewrite !lookup_insert_eq. }
    { intros p Hp. apply not_elem_of_cons in Hp as [Hpl Hp].
      rewrite (Hout p Hp). now rewrite lookup_insert_ne by congruence. }
Qed.

(** A second run of the loop from where the first one ended changes
    nothing. *)
Lemma write_items_again root name (items : list (str * str)) w w1 :
  write_items root name items w = (Ret tt, w1) ->
  write_items root name items w1 = (Ret tt, w1).
Proof.
  intros Hrun.
  destruct (write_items_rerun root name items w w1 Hrun)
    as (Heq & Hext & Hnn & Hframe & Hre).
  destruct (Hre (files w1) Hext Hnn) as (g' & Hrun' & Hin & Hout).
  rewrite <- Heq in Hrun'. rewrite Hrun'. f_equal.
  rewrite Heq. f_equal. apply map_eq. intros p.
  destruct (decide (p ∈ targets w root items)) as [Hp|Hp];
    [apply Hin | apply Hout]; exact Hp.
Qed.

(** ** Making the root directory *)

Lemma os_mkdir_inr fs (lp : list str) fs' :
  os_mkdir fs lp = inr fs' ->
  lp <> [] /\ stat fs (removelast lp) = inr Dir /\ fs !! lp = None
  /\ fs' = <[lp := Dir]> fs.
Proof.
  unfold os_mkdir. destruct lp as [|c lp]; [discriminate|].
  destruct (stat fs (removelast (c :: lp))) as [e|[|d]]; try discriminate.
  destruct (name_fits (List.last (c :: lp) [])); cbn [negb]; [|discriminate].
  destruct (fs !! (c :: lp)); [discriminate|]. intros [= <-].
  repeat split. discriminate.
Qed.

Lemma os_mkdir_inr_fits fs (lp : list str) fs' :
  os_mkdir fs lp = inr fs' -> name_fits (List.last lp []) = true.
Proof.
  unfold os_mkdir. destruct lp as [|c lp]; [discriminate|].
  destruct (stat fs (removelast (c :: lp))) as [e|[|d]]; try discriminate.
  now destruct (name_fits (List.last (c :: lp) [])).
Qed.


Lemma os_mkdir_stat fs (lp : list str) fs' :
  os_mkdir fs lp = inr fs' -> stat fs' lp = inr Dir.
Proof.
  intros Hm. pose proof (os_mkdir_inr_fits _ _ _ Hm) as Hfit.
  apply os_mkdir_inr in Hm as (Hne & Hs & Hn & ->).
  now apply stat_after_mkdir.
Qed.

Lemma is_dir_stat fs (p : list str) : is_dir fs p = true -> stat fs p = inr Dir.
Proof. unfold is_dir. destruct (stat fs p) as [e|[|d]]; congruence. Qed.

Lemma mkdir_plain_frame (exist_ok : bool) (p : Path) (w : world) :
  snd (mkdir_plain exist_ok p w)
  = set_files (files (snd (mkdir_plain exist_ok p w))) w.
Proof.
  unfold mkdir_plain. destruct (locate w p); [|now rewrite set_files_same].
  destruct (os_mkdir (files w) l) as [e|fs']; [|reflexivity].
  destruct e; try (destruct (exist_ok && is_dir (files w) l));
    cbn [snd]; now rewrite set_files_same.
Qed.

Lemma mkdir_plain_ret (exist_ok : bool) (p : Path) (w w' : world)
    (lp : list str) :
  locate w p = Some lp ->
  mkdir_plain exist_ok p w = (Ret tt, w') ->
  stat (files w') lp = inr Dir.
Proof.
  intros Hl. unfold mkdir_plain. rewrite Hl.
  destruct (os_mkdir (files w) lp) as [e|fs'] eqn:Hm.
  - destruct e; try discriminate;
      destruct (exist_ok && is_dir (files w) lp) eqn:Hd; try discriminate;
      intros [= <-]; apply andb_true_iff in Hd as [_ Hd];
      now apply is_dir_stat.
  - intros [= <-]. cbn [files set_files]. exact (os_mkdir_stat _ _ _ Hm).
Qed.

Lemma mkdir_parents_frame (anch : bool) (rparts : list str) :
  forall exist_ok w,
    snd (mkdir_parents exist_ok anch rparts w)
    = set_files (files (snd (mkdir_parents exist_ok anch rparts w))) w.
Proof.
  induction rparts as [|c rparent IH]; intros exist_ok w.
  - cbn [mkdir_parents]. destruct (locate w _); [|now rewrite set_files_same].
    destruct (os_mkdir (files w) l) as [e|fs']; [|reflexivity].
    destruct e; try (destruct (exist_ok && is_dir (files w) l));
      cbn [snd]; now rewrite set_files_same.
  - cbn [mkdir_parents]. destruct (locate w _); [|now rewrite set_files_same].
    destruct (os_mkdir (files w) l) as [e|fs']; [|reflexivity].
    destruct e; try (destruct (exist_ok && is_dir (files w) l));
      cbn [snd]; try (now rewrite set_files_same).
    all: unfold bind; specialize (IH true w);
      destruct (mkdir_parents true anch rparent w) as [[[]|e|] wa];
      cbn [snd] in IH; try exact IH;
      rewrite mkdir_plain_frame; rewrite IH at 2; reflexivity.
Qed.

Lemma mkdir_parents_ret (anch : bool) (rparts : list str)
    (exist_ok : bool) (w w' : world) (lp : list str) :
  locate w {| anchored := anch; parts := rev rparts; doubled := false |} = Some lp ->
  mkdir_parents exist_ok anch rparts w = (Ret tt, w') ->
  stat (files w') lp = inr Dir.
Proof.
  intros Hl. destruct rparts as [|c rparent]; cbn [mkdir_parents]; rewrite Hl.
  - destruct (os_mkdir (files w) lp) as [e|fs'] eqn:Hm.
    + destruct e; try discriminate;
        destruct (exist_ok && is_dir (files w) lp) eqn:Hd; try discriminate;
        intros [= <-]; apply andb_true_iff in Hd as [_ Hd];
        now apply is_dir_stat.
    + intros [= <-]. exact (os_mkdir_stat _ _ _ Hm).
  - destruct (os_mkdir (files w) lp) as [e|fs'] eqn:Hm.
    + destruct e; try discriminate;
        try (destruct (exist_ok && is_dir (files w) lp) eqn:Hd;
             try discriminate;
             intros [= <-]; apply andb_true_iff in Hd as [_ Hd];
             now apply is_dir_stat).
      all: unfold bind;
        pose proof (mkdir_parents_frame anch rparent true w) as Hfr;
        destruct (mkdir_parents true anch rparent w) as [[[]|e|] wa];
        try discriminate;
        cbn [snd] in Hfr; apply mkdir_plain_ret;
        rewrite Hfr; exact Hl.
    + intros [= <-]. exact (os_mkdir_stat _ _ _ Hm).
Qed.

Lemma locate_eta (w : world) (p : Path) :
  locate w {| anchored := anchored p; parts := rev (rev (parts p));
              doubled := false |}
  = locate w p.
Proof. unfold locate. cbn [anchored parts]. now rewrite rev_involutive. Qed.

Lemma mkdir_true_ret (p : Path) (w w' : world) (lp : list str) :
  locate w p = Some lp ->
  mkdir true p w = (Ret tt, w') ->
  w' = set_files (files w') w /\ stat (files w') lp = inr Dir.
Proof.
  intros Hl Hm. unfold mkdir in Hm. split.
  - pose proof (mkdir_parents_frame (anchored p) (rev (parts p)) false w) as H.
    now rewrite Hm in H.
  - apply (mkdir_parents_ret _ _ _ _ _ _ (eq_trans (locate_eta w p) Hl) Hm).
Qed.

(** An existing root: [make_component] goes straight to the loop. *)
Lemma make_component_existing (name : str) (base : Path)
    (mapping : list (str * str)) (w : world) (lroot : list str) (k : node) :
  locate w (path_join base name) = Some lroot ->
  stat (files w) lroot = inr k ->
  make_component name base mapping w
  = write_items (path_join base name) name mapping w.
Proof.
  intros Hl Hs. unfold make_component, bind, path_exists.
  now rewrite Hl, Hs.
Qed.

(** A missing root: [make_component] makes it, then runs the loop. *)
Lemma make_component_missing (name : str) (base : Path)
    (mapping : list (str * str)) (w : world) (lroot : list str) (e : exn) :
  locate w (path_join base name) = Some lroot ->
  stat (files w) lroot = inl e -> ignored e = true ->
  make_component name base mapping w
  = (mkdir true (path_join base name) ;;;
     write_items (path_join base name) name mapping) w.
Proof.
  intros Hl Hs Hi. unfold make_component, path_exists.
  unfold bind at 1 2. now rewrite Hl, Hs, Hi.
Qed.

(** A root that cannot be looked at: the error of [exists()] comes out. *)
Lemma make_component_unreadable (name : str) (base : Path)
    (mapping : list (str * str)) (w : world) (lroot : list str) (e : exn) :
  locate w (path_join base name) = Some lroot ->
  stat (files w) lroot = inl e -> ignored e = false ->
  make_component name base mapping w = (Raise e, w).
Proof.
  intros Hl Hs Hi. unfold make_component, path_exists, bind.
  now rewrite Hl, Hs, Hi.
Qed.

(** C7: when a run of [make_component] succeeds, a second run from the file
    system it left succeeds too and leaves every file, byte for byte, and
    everything else as the first run left it. *)
Theorem make_component_idempotent (name : str) (base : Path)
    (mapping : list (str * str)) (w w1 : world) :
  make_component name base mapping w = (Ret tt, w1) ->
  make_component name base mapping w1 = (Ret tt, w1).
Proof.
  intros Hrun. set (root := path_join base name) in *.
  destruct (locate w root) as [lroot|] eqn:Hl.
  2:{ unfold make_component, bind, path_exists in Hrun. fold root in Hrun.
      rewrite Hl in Hrun. discriminate. }
  assert (Hstart : exists wm,
             wm = set_files (files wm) w
             /\ (exists k, stat (files wm) lroot = inr k)
             /\ write_items root name mapping wm = (Ret tt, w1)).
  { destruct (stat (files w) lroot) as [e|k] eqn:Hs.
    - destruct (ignored e) eqn:Hi.
      2:{ rewrite (make_component_unreadable _ _ _ _ _ _ Hl Hs Hi) in Hrun.
          discriminate. }
      rewrite (make_component_missing _ _ _ _ _ _ Hl Hs Hi) in Hrun.
      fold root in Hrun. unfold bind in Hrun.
      destruct (mkdir true root w) as [[[]|e'|] wm] eqn:Hm; try discriminate.
      destruct (mkdir_true_ret _ _ _ _ Hl Hm) as [Hfr Hd].
      exists wm. split; [exact Hfr|]. split; [now exists Dir|exact Hrun].
    - rewrite (make_component_existing _ _ _ _ _ _ Hl Hs) in Hrun.
      exists w. split; [now rewrite set_files_same|].
      split; [now exists k|exact Hrun]. }
  destruct Hstart as (wm & Hfr & [k Hk] & Hloop).
  destruct (write_items_rerun root name mapping wm w1 Hloop)
    as (Heq & Hext & _).
  destruct (stat_extends _ _ _ _ Hext Hk) as [k' Hk'].
  assert (Hl1 : locate w1 root = Some lroot).
  { rewrite Heq, Hfr. exact Hl. }
  rewrite (make_component_existing _ _ _ _ _ _ Hl1 Hk').
  exact (write_items_again _ _ _ _ _ Hloop).
Qed.

Lemma make_component_idempotent_witness :
  exists w1,
    make_component (str_of "Button") default_dir (get_templates false) empty_world
    = (Ret tt, w1)
    /\ make_component (str_of "Button") default_dir (get_templates false) w1
       = (Ret tt, w1).
Proof.
  eexists. split; [vm_compute; reflexivity|].
  apply (make_component_idempotent _ _ _ empty_world). vm_compute. reflexivity.
Defined.

Lemma locate_snoc (w : world) (anch : bool) (ps : list str) (c : str)
    (lp : list str) :
  locate w {| anchored := anch; parts := ps ++ [c]; doubled := false |} = Some lp ->
  locate w {| anchored := anch; parts := ps; doubled := false |} = Some (removelast lp)
  /\ lp = removelast lp ++ [c].
Proof.
  unfold locate. cbn [anchored parts].
  set (pre := if anch then [] else cwd w).
  assert (E : (if anch then ps ++ [c] else cwd w ++ ps ++ [c])
              = (pre ++ ps) ++ [c]).
  { unfold pre. destruct anch; [reflexivity|now rewrite app_assoc]. }
  assert (E' : (if anch then ps else cwd w ++ ps) = pre ++ ps).
  { unfold pre. now destruct anch. }
  rewrite E, E', existsb_app.
  destruct (existsb _ (pre ++ ps)); [discriminate|]. cbn [orb].
  destruct (existsb _ [c]); [discriminate|]. intros [= <-].
  now rewrite removelast_last.
Qed.


Lemma removelast_prefix (lp : list str) : removelast lp `prefix_of` lp.
Proof.
  destruct (decide (lp = [])) as [->|Hne]; [reflexivity|].
  destruct (exists_last Hne) as (q & c & ->). rewrite removelast_last.
  now exists [c].
Qed.


Lemma grown_by_mkdir fs fs1 (lp : list str) :
  grown_towards (removelast lp) fs fs1 \/ fs1 = fs ->
  fs !! lp = None ->
  grown_towards lp fs (<[lp := Dir]> fs1).
Proof.
  intros Hg Hn p. destruct (decide (lp = p)) as [<-|Hq].
  - right. rewrite lookup_insert_eq. split; [exact Hn|]. split; reflexivity.
  - rewrite lookup_insert_ne by assumption.
    destruct Hg as [Hg| ->]; [|now left].
    destruct (Hg p) as [->|(Hnone & Hdir & Hpre)]; [now left|].
    right. repeat split; try assumption.
    etransitivity; [exact Hpre|apply removelast_prefix].
Qed.






Lemma is_file_extends fs g (p : list str) :
  extends fs g -> is_file fs p = true -> is_file g p = true.
Proof.
  unfold is_file. intros He. destruct (fs !! p) as [[|d]|] eqn:E;
    try discriminate.
  destruct (He _ _ E) as (b & -> & Hk). now destruct b.
Qed.


(** A regular file on the way to the root: [exists()] is false, and
    [mkdir] raises at its first attempt. *)
Lemma make_component_not_a_directory (name : str) (base : Path)
    (mapping : list (str * str)) (w : world) (lroot : list str) :
  locate w (path_join base name) = Some lroot ->
  stat (files w) lroot = inl NotADirectoryError ->
  make_component name base mapping w = (Raise NotADirectoryError, w).
Proof.
  intros Hl Hs.
  rewrite (make_component_missing _ _ _ _ _ _ Hl Hs eq_refl).
  set (root := path_join base name) in *.
  assert (Hne : lroot <> []) by (intros ->; discriminate).
  assert (Hos : os_mkdir (files w) lroot = inl NotADirectoryError).
  { unfold os_mkdir. rewrite (stat_last _ _ Hne) in Hs.
    destruct lroot as [|c l]; [congruence|].
    destruct (stat (files w) (removelast (c :: l))) as [e|[|d]];
      [congruence| |reflexivity].
    destruct (name_fits (List.last (c :: l) [])); cbn [negb] in Hs;
      [|discriminate].
    destruct (files w !! (c :: l)); discriminate. }
  unfold bind, mkdir.
  assert (Hl' : locate w {| anchored := anchored root;
                            parts := rev (rev (parts root));
                            doubled := false |} = Some lroot).
  { now rewrite locate_eta. }
  destruct (rev (parts root)) as [|c rparent]; cbn [mkdir_parents];
    rewrite Hl', Hos; reflexivity.
Qed.




(** The limit on a name, at its edge: a component of 255 letters is made,
    one of 256 letters is refused where [exists()] looks for it and
    nothing is made. *)
Example make_component_long_name :
  make_component (repeat 65 256) default_dir (get_templates true) empty_world
  = (Raise OSError, empty_world)
  /\ fst (make_component (repeat 65 255) default_dir (get_templates true)
            empty_world)
     = Ret tt.
Proof. split; vm_compute; reflexivity. Qed.

(** ** What the loop does when a turn fails *)

Lemma same_streams_refl (w : world) : same_streams w w.
Proof. unfold same_streams. now rewrite set_files_same. Qed.

Lemma same_streams_trans (a b c : world) :
  same_streams a b -> same_streams b c -> same_streams a c.
Proof. unfold same_streams. intros Hab Hbc. rewrite Hbc, Hab. reflexivity. Qed.

Lemma same_streams_cwd (w w' : world) : same_streams w w' -> cwd w' = cwd w.
Proof. intros ->. reflexivity. Qed.

(** The file is emptied when it is opened, before the template is
    formatted. *)
Lemma write_item_raise root name (item : str * str) (w : world)
    (lp : list str) (e : exn) :
  locate w (path_join root (fst item)) = Some lp ->
  writable w lp ->
  format (snd item) name = Raise e ->
  write_item root name item w
  = (Raise e, set_files (<[lp := File []]> (files w)) w).
Proof.
  intros Hl (Hne & Hs & Hd & Hfit) Hf. unfold write_item, bind, open_w.
  rewrite Hl. destruct lp as [|c lp]; [congruence|]. rewrite Hs, Hfit.
  cbn [negb]. unfold render_template. rewrite Hf.
  destruct (files w !! (c :: lp)) as [[|d]|]; [congruence| |]; reflexivity.
Qed.

(** X5: when the file can be opened and formatting the template raises,
    the error comes out of the turn and the file is left empty: what it
    held before is lost. *)
Theorem write_item_truncates root name (item : str * str) (w : world)
    (lp : list str) (e : exn) :
  locate w (path_join root (fst item)) = Some lp ->
  writable w lp ->
  format (snd item) name = Raise e ->
  fst (write_item root name item w) = Raise e
  /\ files (snd (write_item root name item w)) !! lp = Some (File [])
  /\ forall p, p <> lp ->
       files (snd (write_item root name item w)) !! p = files w !! p.
Proof.
  intros Hl Hw Hf. rewrite (write_item_raise _ _ _ _ _ _ Hl Hw Hf).
  cbn [fst snd files set_files]. split; [reflexivity|].
  split; [apply lookup_insert_eq|].
  intros p Hp. now rewrite lookup_insert_ne by congruence.
Qed.

Lemma write_item_truncates_witness :
  fst (write_item root_dir (str_of "Foo") (str_of "index.js", str_of "{title}")
         old_world) = Raise KeyError
  /\ files (snd (write_item root_dir (str_of "Foo")
                   (str_of "index.js", str_of "{title}") old_world))
       !! old_file = Some (File []).
Proof.
  pose proof (write_item_truncates root_dir (str_of "Foo")
                (str_of "index.js", str_of "{title}") old_world old_file
                KeyError) as H.
  destruct H as (H1 & H2 & _).
  - reflexivity.
  - repeat split; [discriminate|vm_compute; discriminate].
  - reflexivity.
  - split; assumption.
Defined.

(** A turn of the loop, whatever its outcome: only the files change, no
    entry is lost or changes its kind, no directory appears, and the only
    location that can change is the one the turn writes to. *)
Lemma write_item_frame root name (item : str * str) (w : world) :
  same_streams w (snd (write_item root name item w))
  /\ extends (files w) (files (snd (write_item root name item w)))
  /\ no_new_dirs (files w) (files (snd (write_item root name item w)))
  /\ forall p,
       files (snd (write_item root name item w)) !! p <> files w !! p ->
       locate w (path_join root (fst item)) = Some p.
Proof.
  assert (Hsame : same_streams w w /\ extends (files w) (files w)
                  /\ no_new_dirs (files w) (files w)
                  /\ forall p, files w !! p <> files w !! p ->
                       locate w (path_join root (fst item)) = Some p).
  { split; [apply same_streams_refl|]. split; [apply extends_refl|].
    split; [apply no_new_dirs_refl|]. intros p Hp. congruence. }
  unfold write_item, bind, open_w.
  destruct (locate w (path_join root (fst item))) as [lp|] eqn:Hl;
    [|exact Hsame].
  destruct lp as [|c lp]; [exact Hsame|].
  destruct (stat (files w) (removelast (c :: lp))) as [e|[|d]];
    try exact Hsame.
  set (lp' := c :: lp) in *.
  assert (Hput : forall data, files w !! lp' <> Some Dir ->
             let w' := set_files (<[lp' := File data]> (files w)) w in
             same_streams w w' /\ extends (files w) (files w')
             /\ no_new_dirs (files w) (files w')
             /\ forall p, files w' !! p <> files w !! p -> Some lp' = Some p).
  { intros data Hd w'. split; [reflexivity|].
    split; [now apply extends_overwrite|].
    split; [apply no_new_dirs_overwrite|].
    intros p Hp. cbn [w' files set_files] in Hp.
    destruct (decide (lp' = p)) as [->|Hne]; [reflexivity|].
    now rewrite lookup_insert_ne in Hp by assumption. }
  assert (Hrender : forall wm,
             wm = set_files (<[lp' := File []]> (files w)) w ->
             files w !! lp' <> Some Dir ->
             let w' := snd (render_template lp' (snd item) name wm) in
             same_streams w w' /\ extends (files w) (files w')
             /\ no_new_dirs (files w) (files w')
             /\ forall p, files w' !! p <> files w !! p -> Some lp' = Some p).
  { intros wm -> Hd. unfold render_template.
    destruct (format (snd item) name) as [s|e|];
      [|exact (Hput [] Hd)|exact (Hput [] Hd)].
    unfold file_write. cbn [files set_files]. rewrite lookup_insert_eq.
    cbn [snd]. rewrite insert_insert_eq. exact (Hput ([] ++ s) Hd). }
  destruct (name_fits (List.last lp' [])); cbn [negb]; [|exact Hsame].
  destruct (files w !! lp') as [[|d]|] eqn:Hf; [exact Hsame| |].
  - specialize (Hrender _ eq_refl). cbv zeta in Hrender.
    destruct (render_template lp' (snd item) name _) as [[[]|e|] w'];
      apply Hrender; discriminate.
  - specialize (Hrender _ eq_refl). cbv zeta in Hrender.
    destruct (render_template lp' (snd item) name _) as [[[]|e|] w'];
      apply Hrender; discriminate.
Qed.

Lemma targets_cwd (w w' : world) (root : Path) (items : list (str * str)) :
  cwd w' = cwd w -> targets w' root items = targets w root items.
Proof.
  intros H. unfold targets. induction items as [|item items IH];
    [reflexivity|].
  cbn [omap list_omap]. now rewrite (locate_cwd w w' _ H), IH.
Qed.

Lemma targets_head (w : world) (root : Path) (item : str * str)
    (rest : list (str * str)) (p : list str) :
  locate w (path_join root (fst item)) = Some p ->
  p ∈ targets w root (item :: rest).
Proof. intros H. rewrite (targets_cons _ _ _ _ _ H). apply list_elem_of_here. Qed.

Lemma targets_tail (w : world) (root : Path) (item : str * str)
    (rest : list (str * str)) (p : list str) :
  p ∈ targets w root rest -> p ∈ targets w root (item :: rest).
Proof.
  intros H. unfold targets. cbn [omap list_omap].
  destruct (locate w (path_join root (fst item)));
    [now apply list_elem_of_further|exact H].
Qed.

(** The loop, whatever its outcome. *)
Lemma write_items_frame root name (items : list (str * str)) :
  forall w,
    same_streams w (snd (write_items root name items w))
    /\ extends (files w) (files (snd (write_items root name items w)))
    /\ no_new_dirs (files w) (files (snd (write_items root name items w)))
    /\ forall p,
         files (snd (write_items root name items w)) !! p <> files w !! p ->
         p ∈ targets w root items.
Proof.
  induction items as [|item rest IH]; intros w.
  - cbn. split; [apply same_streams_refl|]. split; [apply extends_refl|].
    split; [apply no_new_dirs_refl|]. intros p Hp. congruence.
  - rewrite write_items_cons. unfold bind.
    destruct (write_item_frame root name item w) as (Hs & He & Hn & Hc).
    destruct (write_item root name item w) as [[[]|e|] wm]; cbn [snd] in *.
    2,3: split; [exact Hs|]; split; [exact He|]; split; [exact Hn|];
         intros p Hp; exact (targets_head _ _ _ _ _ (Hc p Hp)).
    destruct (IH wm) as (Hs' & He' & Hn' & Hc').
    split; [exact (same_streams_trans _ _ _ Hs Hs')|].
    split; [exact (extends_trans _ _ _ He He')|].
    split; [exact (no_new_dirs_trans _ _ _ Hn Hn')|].
    intros p Hp.
    destruct (decide (files (snd (write_items root name rest wm)) !! p
                      = files wm !! p)) as [Heq|Hne].
    + rewrite Heq in Hp. exact (targets_head _ _ _ _ _ (Hc p Hp)).
    + apply targets_tail.
      rewrite <- (targets_cwd w wm root rest (same_streams_cwd _ _ Hs)).
      exact (Hc' p Hne).
Qed.

Lemma write_items_app root name (a b : list (str * str)) (w : world) :
  write_items root name (a ++ b) w
  = (write_items root name a ;;; write_items root name b) w.
Proof.
  revert w. induction a as [|item a IH]; intros w; [reflexivity|].
  cbn [app]. unfold bind at 1. rewrite !write_items_cons. unfold bind at 1 2.
  destruct (write_item root name item w) as [[[]|e|] wm]; try reflexivity.
  rewrite IH. reflexivity.
Qed.

(** After a successful loop every target is a file. *)
Lemma write_items_targets_files root name (items : list (str * str)) :
  forall w w1,
    write_items root name items w = (Ret tt, w1) ->
    forall p, p ∈ targets w root items -> is_file (files w1) p = true.
Proof.
  induction items as [|item rest IH]; intros w w1 Hrun p Hp.
  - now apply not_elem_of_nil in Hp.
  - rewrite write_items_cons in Hrun. unfold bind in Hrun.
    destruct (write_item root name item w) as [[[]|e|] wm] eqn:Hitem;
      try discriminate.
    destruct (write_item_ret_inv _ _ _ _ _ Hitem)
      as (lp & s & Hl & Hw & Hf & ->).
    rewrite (targets_cons _ _ _ _ _ Hl) in Hp.
    destruct (decide (p ∈ targets w root rest)) as [Hin|Hout].
    + exact (IH _ _ Hrun p Hin).
    + apply elem_of_cons in Hp as [->|Hp]; [|contradiction].
      destruct (write_items_rerun _ _ _ _ _ Hrun) as (_ & He & _).
      apply (is_file_extends _ _ _ He). unfold is_file.
      cbn [files set_files]. now rewrite lookup_insert_eq.
Qed.

(** X4: the loop has no roll-back.  When the turns for the first items
    succeed and a later turn raises, the error comes out of the whole loop
    and the files of the first items stay written. *)
Theorem write_items_no_rollback root name (a b : list (str * str))
    (w w1 w2 : world) (e : exn) :
  write_items root name a w = (Ret tt, w1) ->
  write_items root name b w1 = (Raise e, w2) ->
  write_items root name (a ++ b) w = (Raise e, w2)
  /\ forall p, p ∈ targets w root a -> is_file (files w2) p = true.
Proof.
  intros Ha Hb. split.
  - rewrite write_items_app. unfold bind. now rewrite Ha.
  - intros p Hp.
    destruct (write_items_frame root name b w1) as (_ & He & _).
    rewrite Hb in He. cbn [snd] in He.
    apply (is_file_extends _ _ _ He).
    exact (write_items_targets_files _ _ _ _ _ Ha p Hp).
Qed.

Lemma write_items_no_rollback_witness :
  exists w2,
    write_items root_dir (str_of "Foo")
      ([(str_of "a.js", str_of "{name}")] ++ [(str_of "b.js", str_of "}")])
      empty_world
    = (Raise ValueError, w2)
    /\ is_file (files w2) [str_of "a.js"] = true.
Proof.
  eexists. 
  pose proof (write_items_no_rollback root_dir (str_of "Foo")
                [(str_of "a.js", str_of "{name}")]
                [(str_of "b.js", str_of "}")] empty_world) as H.
  edestruct H as [H1 H2]; [vm_compute; reflexivity|vm_compute; reflexivity|].
  split; [exact H1|]. apply H2. vm_compute. apply list_elem_of_here.
Defined.

(** ** A root that cannot be used *)

(** X6: when the root exists and is a regular file, the first turn of the
    loop for a plain file name raises [NotADirectoryError]; nothing is
    changed. *)
Theorem make_component_root_is_file (name : str) (base : Path)
    (item : str * str) (rest : list (str * str)) (w : world)
    (lroot : list str) (data : str) :
  locate w (path_join base name) = Some lroot ->
  stat (files w) lroot = inr (File data) ->
  plain_key (fst item) ->
  make_component name base (item :: rest) w = (Raise NotADirectoryError, w).
Proof.
  intros Hl Hs Hk. rewrite (make_component_existing _ _ _ _ _ _ Hl Hs).
  rewrite write_items_cons. unfold write_item, bind, open_w.
  rewrite (locate_join_plain _ _ _ Hk), Hl. cbn [option_map].
  destruct (lroot ++ [fst item]) as [|c lp] eqn:E; [now destruct lroot|].
  rewrite <- E, removelast_last, Hs. reflexivity.
Qed.

Lemma make_component_root_is_file_witness :
  make_component (str_of "index.js") root_dir (get_templates true) old_world
  = (Raise NotADirectoryError, old_world).
Proof.
  apply (make_component_root_is_file _ _ _ _ _ old_file (str_of "old"));
    [reflexivity|reflexivity|].
  split; reflexivity.
Defined.

Lemma stat_nil fs : stat fs [] = inr Dir.
Proof. reflexivity. Qed.

(** X7: when a regular file stands where a directory is needed on the way
    to the root, [make_component] raises [NotADirectoryError] and changes
    nothing. *)
Theorem make_component_blocked (name : str) (base : Path)
    (mapping : list (str * str)) (w : world) (lroot : list str) :
  locate w (path_join base name) = Some lroot ->
  stat (files w) lroot = inl NotADirectoryError ->
  make_component name base mapping w = (Raise NotADirectoryError, w).
Proof.
  intros Hl Hs. exact (make_component_not_a_directory _ _ _ _ _ Hl Hs).
Qed.

Lemma make_component_blocked_witness :
  make_component (str_of "Button")
    {| anchored := true; parts := [str_of "index.js"]; doubled := false |}
    (get_templates false) old_world
  = (Raise NotADirectoryError, old_world).
Proof.
  apply (make_component_blocked _ _ _ _
           [str_of "index.js"; str_of "Button"]); reflexivity.
Defined.

(** ** What [make_component] can change *)

Lemma grown_refl (t : list str) fs : grown_towards t fs fs.
Proof. intros p. now left. Qed.

Lemma grown_weaken (t t' : list str) fs g :
  t `prefix_of` t' -> grown_towards t fs g -> grown_towards t' fs g.
Proof.
  intros Ht Hg p. destruct (Hg p) as [H|(Hn & Hd & Hp)]; [now left|].
  right. repeat split; try assumption. now transitivity t.
Qed.

Lemma grown_extends (t : list str) fs g : grown_towards t fs g -> extends fs g.
Proof.
  intros Hg p a Ha. destruct (Hg p) as [H|(Hn & _)]; [|congruence].
  exists a. split; [congruence|now destruct a].
Qed.

Lemma mkdir_plain_step (exist_ok : bool) (p : Path) (w : world) (lp : list str) :
  locate w p = Some lp ->
  snd (mkdir_plain exist_ok p w) = w
  \/ (files w !! lp = None
      /\ snd (mkdir_plain exist_ok p w) = set_files (<[lp := Dir]> (files w)) w).
Proof.
  intros Hl. unfold mkdir_plain. rewrite Hl.
  destruct (os_mkdir (files w) lp) as [e|fs'] eqn:Hm.
  - left. destruct e; try reflexivity;
      destruct (exist_ok && is_dir (files w) lp); reflexivity.
  - right. apply os_mkdir_inr in Hm as (_ & _ & Hn & ->). now split.
Qed.

Lemma grown_none (t : list str) fs g (p : list str) :
  grown_towards t fs g -> g !! p = None -> fs !! p = None.
Proof. intros Hg Hn. destruct (Hg p) as [H|(H & _)]; congruence. Qed.

(** [Path.mkdir(parents=True)], whatever its outcome: what it adds are
    directories on the way to the path. *)
Lemma mkdir_parents_grown (anch : bool) (rparts : list str) :
  forall exist_ok w lp,
    locate w {| anchored := anch; parts := rev rparts; doubled := false |} = Some lp ->
    grown_towards lp (files w)
      (files (snd (mkdir_parents exist_ok anch rparts w))).
Proof.
  induction rparts as [|c rparent IH]; intros exist_ok w lp Hl.
  - cbn [mkdir_parents]. rewrite Hl.
    destruct (os_mkdir (files w) lp) as [e|fs'] eqn:Hm.
    + destruct e; try apply grown_refl;
        destruct (exist_ok && is_dir (files w) lp); apply grown_refl.
    + apply os_mkdir_inr in Hm as (_ & _ & Hn & ->).
      apply grown_by_mkdir; [now right|exact Hn].
  - cbn [mkdir_parents]. rewrite Hl.
    destruct (os_mkdir (files w) lp) as [e|fs'] eqn:Hm.
    + destruct e; try apply grown_refl;
        try (destruct (exist_ok && is_dir (files w) lp); apply grown_refl).
      cbn [rev] in Hl. destruct (locate_snoc _ _ _ _ _ Hl) as [Hlp _].
      specialize (IH true w _ Hlp).
      pose proof (mkdir_parents_frame anch rparent true w) as Hfr.
      unfold bind.
      destruct (mkdir_parents true anch rparent w) as [[[]|e|] wa];
        cbn [snd] in *;
        try exact (grown_weaken _ _ _ _ (removelast_prefix lp) IH).
      assert (Hla : locate wa {| anchored := anch;
                                 parts := rev (c :: rparent); doubled := false |} = Some lp).
      { rewrite Hfr. exact Hl. }
      destruct (mkdir_plain_step exist_ok _ wa lp Hla) as [->|[Hn ->]].
      * exact (grown_weaken _ _ _ _ (removelast_prefix lp) IH).
      * cbn [files set_files]. apply grown_by_mkdir; [now left|].
        exact (grown_none _ _ _ _ IH Hn).
    + apply os_mkdir_inr in Hm as (_ & _ & Hn & ->).
      apply grown_by_mkdir; [now right|exact Hn].
Qed.

Lemma os_mkdir_error fs (p : list str) (e : exn) :
  os_mkdir fs p = inl e -> os_error e = true.
Proof.
  unfold os_mkdir. destruct p as [|c p]; [now intros [= <-]|].
  destruct (stat fs (removelast (c :: p))) as [e'|[|d]] eqn:Hs.
  - intros [= <-]. exact (walk_error _ _ _ _ _ Hs).
  - destruct (name_fits (List.last (c :: p) [])); cbn [negb];
      [|now intros [= <-]].
    destruct (fs !! (c :: p)); [now intros [= <-]|discriminate].
  - now intros [= <-].
Qed.

Lemma mkdir_plain_raise (exist_ok : bool) (p : Path) (w : world) (e : exn) :
  fst (mkdir_plain exist_ok p w) = Raise e -> os_error e = true.
Proof.
  unfold mkdir_plain. destruct (locate w p) as [lp|]; [|discriminate].
  destruct (os_mkdir (files w) lp) as [e'|fs'] eqn:Hm; [|discriminate].
  apply os_mkdir_error in Hm.
  destruct e'; try discriminate;
    try (destruct (exist_ok && is_dir (files w) lp); try discriminate);
    now intros [= <-].
Qed.

Lemma mkdir_parents_raise (anch : bool) (rparts : list str) :
  forall exist_ok w e,
    fst (mkdir_parents exist_ok anch rparts w) = Raise e -> os_error e = true.
Proof.
  induction rparts as [|c rparent IH]; intros exist_ok w e;
    cbn [mkdir_parents];
    (destruct (locate w _) as [lp|]; [|discriminate]);
    (destruct (os_mkdir (files w) lp) as [e'|fs'] eqn:Hm; [|discriminate]);
    apply os_mkdir_error in Hm.
  - destruct e'; try discriminate;
      try (destruct (exist_ok && is_dir (files w) lp); try discriminate);
      now intros [= <-].
  - destruct e'; try discriminate;
      try (destruct (exist_ok && is_dir (files w) lp); try discriminate;
           now intros [= <-]).
    unfold bind. specialize (IH true w).
    destruct (mkdir_parents true anch rparent w) as [[[]|e'|] wa];
      cbn [fst] in *.
    + apply mkdir_plain_raise.
    + intros [= <-]. now apply IH.
    + discriminate.
Qed.

Lemma make_component_changes (name : str) (base : Path)
    (mapping : list (str * str)) (w : world) :
  let root := path_join base name in
  let w' := snd (make_component name base mapping w) in
  same_streams w w'
  /\ extends (files w) (files w')
  /\ forall p, files w' !! p <> files w !! p ->
       p ∈ targets w root mapping
       \/ (files w !! p = None /\ files w' !! p = Some Dir
           /\ exists lroot, locate w root = Some lroot /\ p `prefix_of` lroot).
Proof.
  intros root w'. subst w'.
  destruct (locate w root) as [lroot|] eqn:Hl.
  2:{ assert (E : make_component name base mapping w = (Unsupported, w)).
      { unfold make_component, bind, path_exists. fold root. now rewrite Hl. }
      rewrite E. cbn [snd]. split; [apply same_streams_refl|].
      split; [apply extends_refl|]. intros p Hp. congruence. }
  destruct (stat (files w) lroot) as [e|k] eqn:Hs.
  - destruct (ignored e) eqn:Hi.
    2:{ rewrite (make_component_unreadable _ _ _ _ _ _ Hl Hs Hi). cbn [snd].
        split; [apply same_streams_refl|]. split; [apply extends_refl|].
        intros p Hp. congruence. }
    rewrite (make_component_missing _ _ _ _ _ _ Hl Hs Hi). fold root.
    unfold bind, mkdir.
    pose proof (mkdir_parents_frame (anchored root) (rev (parts root)) false w)
      as Hfr.
    pose proof (mkdir_parents_grown (anchored root) (rev (parts root)) false
                  w lroot (eq_trans (locate_eta _ root) Hl)) as Hg.
    destruct (mkdir_parents false (anchored root) (rev (parts root)) w)
      as [[[]|e'|] wm]; cbn [snd] in *.
    2,3: split; [exact Hfr|]; split; [exact (grown_extends _ _ _ Hg)|];
         intros p Hp; right; destruct (Hg p) as [H|(Hn & Hd & Hpre)];
         [congruence|]; repeat split; try assumption; now exists lroot.
    destruct (write_items_frame root name mapping wm) as (Hs' & He' & _ & Hc').
    split; [exact (same_streams_trans _ _ _ Hfr Hs')|].
    split; [exact (extends_trans _ _ _ (grown_extends _ _ _ Hg) He')|].
    intros p Hp.
    destruct (decide (files (snd (write_items root name mapping wm)) !! p
                      = files wm !! p)) as [Heq|Hne].
    + right. rewrite Heq in *. destruct (Hg p) as [H|(Hn & Hd & Hpre)];
        [congruence|]. repeat split; try assumption. now exists lroot.
    + left. rewrite <- (targets_cwd w wm root mapping
                          (same_streams_cwd _ _ Hfr)).
      exact (Hc' p Hne).
  - rewrite (make_component_existing _ _ _ _ _ _ Hl Hs). fold root.
    destruct (write_items_frame root name mapping w) as (Hs' & He' & _ & Hc').
    split; [exact Hs'|]. split; [exact He'|].
    intros p Hp. left. exact (Hc' p Hp).
Qed.

(** X3: whatever its outcome, [make_component] changes nothing but the
    files of the world, loses no entry and changes the kind of none; a
    location whose content differs afterwards is a target of the loop, or
    was missing, lies on the way to the root and is now a directory. *)
Theorem make_component_confined (name : str) (base : Path)
    (mapping : list (str * str)) (w : world) :
  let root := path_join base name in
  let w' := snd (make_component name base mapping w) in
  same_streams w w'
  /\ extends (files w) (files w')
  /\ forall p, files w' !! p <> files w !! p ->
       p ∈ targets w root mapping
       \/ (files w !! p = None /\ files w' !! p = Some Dir
           /\ exists lroot, locate w root = Some lroot /\ p `prefix_of` lroot).
Proof. exact (make_component_changes name base mapping w). Qed.

(** ** Valid names and the root *)

Lemma split_on_none (sep : N) (s : str) :
  forallb (fun c => negb (c =? sep)) s = true -> split_on sep s = [s].
Proof.
  induction s as [|c s IH]; [reflexivity|]. cbn [forallb split_on].
  intros [Hc Hs]%andb_true_iff. apply negb_true_iff in Hc.
  now rewrite Hc, (IH Hs).
Qed.

Lemma upper_not_slash_dot (c : N) :
  is_upper c = true -> (c =? SLASH) = false /\ (c =? DOT) = false.
Proof.
  unfold is_upper, SLASH, DOT. intros [H1%N.leb_le _]%andb_true_iff.
  split; apply N.eqb_neq; lia.
Qed.

Lemma word_not_slash (ucd : UnicodeData) (c : N) :
  re_word ucd c = true -> negb (c =? SLASH) = true.
Proof.
  intros H. destruct (c =? SLASH) eqn:E; [|reflexivity].
  apply N.eqb_eq in E. subst c. discriminate.
Qed.

Lemma forallb_weaken (P Q : N -> bool) (s : str) :
  (forall c, P c = true -> Q c = true) ->
  forallb P s = true -> forallb Q s = true.
Proof.
  intros HPQ. induction s as [|c s IH]; [reflexivity|]. cbn [forallb].
  intros [Hc Hs]%andb_true_iff. now rewrite (HPQ c Hc), (IH Hs).
Qed.

Lemma forallb_before_nl (Q : N -> bool) (s : str) :
  Q NL = true -> ends_nl s = true ->
  forallb Q (removelast s) = true -> forallb Q s = true.
Proof.
  intros HQ. induction s as [|c s IH]; [reflexivity|].
  destruct s as [|d s].
  - cbn. intros ->%N.eqb_eq _. now rewrite HQ.
  - rewrite ends_nl_cons.
    change (removelast (c :: d :: s)) with (c :: removelast (d :: s)).
    cbn [forallb]. intros He [Hc Hs]%andb_true_iff.
    rewrite Hc. exact (IH He Hs).
Qed.

Lemma valid_name_no_slash (ucd : UnicodeData) (name : str) :
  is_component_name ucd name = true ->
  exists c rest, name = c :: rest /\ is_upper c = true
                 /\ forallb (fun c => negb (c =? SLASH)) name = true.
Proof.
  rewrite is_component_name_eq. destruct name as [|c rest]; [discriminate|].
  intros [Hc Hr]%andb_true_iff. exists c, rest. split; [reflexivity|].
  split; [exact Hc|]. cbn [forallb].
  destruct (upper_not_slash_dot c Hc) as [-> _]. cbn [negb andb].
  apply orb_true_iff in Hr as [Hr|[He Hr]%andb_true_iff].
  - exact (forallb_weaken _ _ _ (word_not_slash ucd) Hr).
  - apply forallb_before_nl; [reflexivity|exact He|].
    exact (forallb_weaken _ _ _ (word_not_slash ucd) Hr).
Qed.

Lemma valid_name_plain (ucd : UnicodeData) (name : str) :
  is_component_name ucd name = true -> plain_key name.
Proof.
  intros (c & rest & -> & Hc & Hs)%valid_name_no_slash.
  destruct (upper_not_slash_dot c Hc) as [Hsl Hdot].
  assert (Hdot' : c <> 46) by (now apply N.eqb_neq).
  split.
  - unfold parse_path. rewrite (split_on_none _ _ Hs), Hsl.
    cbn [List.filter]. unfold keep_part, str_eqb.
    rewrite !bool_decide_eq_false_2; [now destruct rest| |discriminate].
    intros [= E _]. contradiction.
  - unfold str_eqb. apply bool_decide_eq_false_2.
    intros [= E _]. now symmetry in E.
Qed.

(** X2: a name the validator accepts has no slash and is neither a dot nor
    a double dot, so it is one path component: the root of the component
    is the entry of that name directly in the base directory. *)
Theorem valid_name_one_component (ucd : UnicodeData) (name : str) :
  is_component_name ucd name = true ->
  forallb (fun c => negb (c =? SLASH)) name = true
  /\ forall (w : world) (base : Path),
       locate w (path_join base name)
       = option_map (fun l => l ++ [name]) (locate w base).
Proof.
  intros H. split.
  - now destruct (valid_name_no_slash ucd name H) as (c & rest & _ & _ & Hs).
  - intros w base. apply locate_join_plain. exact (valid_name_plain ucd name H).
Qed.

Lemma valid_name_one_component_witness :
  locate empty_world (path_join deep_dir (str_of "Button"))
  = Some [str_of "src"; str_of "ui"; str_of "Button"].
Proof.
  now rewrite (proj2 (valid_name_one_component ascii_only (str_of "Button")
                        eq_refl) empty_world deep_dir).
Defined.

(** ** What the loop leaves in a directory *)




(** ** The runs of [main] *)

Lemma main_skip (ucd : UnicodeData) (a : args) (w : world) :
  is_component_name ucd (component_name a) = true ->
  skip_confirm a = true ->
  main ucd a w = proceed a (put_stdout (plan_text a) w).
Proof.
  intros Hv Hs. rewrite (main_valid_name ucd a w Hv).
  unfold after_plan. now rewrite Hs.
Qed.

Lemma proceed_cases (a : args) (w : world) :
  proceed a w
  = match make_component (component_name a) (dir a)
            (get_templates (simple a)) w with
    | (Ret _, w') => (Ret tt, put_stdout (msg_done ++ [NL]) w')
    | (Raise e, w') => (Raise e, w')
    | (Unsupported, w') => (Unsupported, w')
    end.
Proof.
  unfold proceed, bind.
  destruct (make_component _ _ _ w) as [[[]|e|] w']; reflexivity.
Qed.

Lemma after_plan_cases (ucd : UnicodeData) (a : args) (w : world) :
  (skip_confirm a = true /\ after_plan ucd a w = proceed a w)
  \/ (skip_confirm a = false
      /\ ((stdin w = []
           /\ after_plan ucd a w
              = (Raise EOFError, drop_line (put_stdout msg_prompt w)))
          \/ (stdin w <> []
              /\ (after_plan ucd a w
                  = proceed a (drop_line (put_stdout msg_prompt w))
                  \/ after_plan ucd a w
                     = (Raise (SystemExit 0),
                        put_stdout (msg_cancelled ++ [NL])
                          (drop_line (put_stdout msg_prompt w))))))).
Proof.
  unfold after_plan. destruct (skip_confirm a); [left; now split|right].
  split; [reflexivity|]. cbn [negb].
  unfold confirm, bind, input, ret. cbv beta.
  destruct (stdin w) as [|line rest]; [left; now split|right].
  split; [discriminate|].
  destruct (str_eqb (casefold ucd line) (casefold ucd (str_of "s")));
    [left|right]; reflexivity.
Qed.






(** X1: with a valid name and without the skip flag, when the input is at
    its end [main] has printed the plan and the prompt and stops with
    [EOFError]: the exit status is 1 and no file is written. *)
Theorem main_at_end_of_input (ucd : UnicodeData) (a : args) (w : world) :
  is_component_name ucd (component_name a) = true ->
  skip_confirm a = false ->
  stdin w = [] ->
  main ucd a w
  = (Raise EOFError,
     drop_line (put_stdout msg_prompt (put_stdout (plan_text a) w)))
  /\ exit_status (fst (main ucd a w)) = Some 1%Z
  /\ files (snd (main ucd a w)) = files w.
Proof.
  intros Hv Hs Hin. rewrite (main_valid_name ucd a w Hv).
  destruct (after_plan_cases ucd a (put_stdout (plan_text a) w))
    as [[Hs' _]|[_ [[_ E]|[Hne _]]]]; [congruence| |contradiction].
  rewrite E. repeat split.
Qed.

Lemma main_at_end_of_input_witness :
  exit_status (fst (main ascii_only (button_args false false) empty_world))
  = Some 1%Z.
Proof.
  apply (main_at_end_of_input ascii_only (button_args false false) empty_world);
    reflexivity.
Defined.

Lemma make_component_outcome (name : str) (base : Path) (simple : bool)
    (w : world) :
  match fst (make_component name base (get_templates simple) w) with
  | Raise e => os_error e = true
  | _ => True
  end.
Proof.
  set (root := path_join base name).
  destruct (locate w root) as [lroot|] eqn:Hl.
  2:{ assert (E : make_component name base (get_templates simple) w
                  = (Unsupported, w)).
      { unfold make_component, bind, path_exists. fold root. now rewrite Hl. }
      now rewrite E. }
  assert (Hloop : forall w0,
             match fst (write_items root name (get_templates simple) w0) with
             | Raise e => os_error e = true
             | _ => True
             end).
  { intros w0.
    pose proof (write_items_only_io root name (get_templates simple)
                  (get_templates_render simple name)
                  (get_templates_plain simple) w0) as H.
    destruct (fst (write_items root name (get_templates simple) w0));
      [exact I|exact H|exact I]. }
  destruct (stat (files w) lroot) as [e|k] eqn:Hs.
  - destruct (ignored e) eqn:Hi.
    2:{ rewrite (make_component_unreadable _ _ _ _ _ _ Hl Hs Hi). cbn [fst].
        exact (walk_error _ _ _ _ _ Hs). }
    rewrite (make_component_missing _ _ _ _ _ _ Hl Hs Hi). fold root.
    unfold bind, mkdir.
    pose proof (mkdir_parents_raise (anchored root) (rev (parts root)) false w)
      as Hr.
    destruct (mkdir_parents false (anchored root) (rev (parts root)) w)
      as [[[]|e'|] wm]; cbn [fst] in *;
      [apply Hloop|now apply Hr|exact I].
  - rewrite (make_component_existing _ _ _ _ _ _ Hl Hs). apply Hloop.
Qed.

Lemma mkdir_plain_unsupported (exist_ok : bool) (p : Path) (w : world) :
  fst (mkdir_plain exist_ok p w) = Unsupported -> locate w p = None.
Proof.
  unfold mkdir_plain. destruct (locate w p) as [lp|]; [|reflexivity].
  destruct (os_mkdir (files w) lp) as [e|fs']; [|discriminate].
  destruct e; try discriminate;
    destruct (exist_ok && is_dir (files w) lp); discriminate.
Qed.

Lemma mkdir_parents_unsupported (anch : bool) (rparts : list str) :
  forall exist_ok w,
    fst (mkdir_parents exist_ok anch rparts w) = Unsupported ->
    locate w {| anchored := anch; parts := rev rparts; doubled := false |}
    = None.
Proof.
  induction rparts as [|c rparent IH]; intros exist_ok w;
    cbn [mkdir_parents];
    (destruct (locate w _) as [lp|] eqn:Hl; [|reflexivity]);
    (destruct (os_mkdir (files w) lp) as [e|fs']; [|discriminate]).
  - destruct e; try discriminate;
      destruct (exist_ok && is_dir (files w) lp); discriminate.
  - destruct e; try discriminate;
      try (destruct (exist_ok && is_dir (files w) lp); discriminate).
    unfold bind. pose proof (mkdir_parents_frame anch rparent true w) as Hfr.
    specialize (IH true w).
    destruct (mkdir_parents true anch rparent w) as [[[]|e|] wa];
      cbn [fst snd] in *.
    + intros Hu. apply mkdir_plain_unsupported in Hu.
      rewrite (locate_cwd w wa) in Hu by (now rewrite Hfr). congruence.
    + discriminate.
    + intros _. specialize (IH eq_refl). cbn [rev] in Hl.
      destruct (locate_snoc _ _ _ _ _ Hl) as [Hlp _]. congruence.
Qed.

(** With the templates of the registry, the only runs of [make_component]
    the model does not settle are those on a path with a double dot. *)
Lemma make_component_unsupported (name : str) (base : Path) (simple : bool)
    (w : world) :
  fst (make_component name base (get_templates simple) w) = Unsupported ->
  locate w (path_join base name) = None.
Proof.
  set (root := path_join base name).
  destruct (locate w root) as [lroot|] eqn:Hl; [|reflexivity].
  assert (Hloop : forall w0, cwd w0 = cwd w ->
             fst (write_items root name (get_templates simple) w0)
             <> Unsupported).
  { intros w0 Hc Hu.
    pose proof (write_items_only_io root name (get_templates simple)
                  (get_templates_render simple name)
                  (get_templates_plain simple) w0) as H.
    rewrite Hu in H. cbn in H. rewrite (locate_cwd w w0 root Hc) in H.
    congruence. }
  destruct (stat (files w) lroot) as [e|k] eqn:Hs.
  - destruct (ignored e) eqn:Hi.
    2:{ now rewrite (make_component_unreadable _ _ _ _ _ _ Hl Hs Hi). }
    rewrite (make_component_missing _ _ _ _ _ _ Hl Hs Hi). fold root.
    unfold bind, mkdir.
    pose proof (mkdir_parents_frame (anchored root) (rev (parts root)) false w)
      as Hfr.
    pose proof (mkdir_parents_unsupported (anchored root) (rev (parts root))
                  false w) as Hu.
    destruct (mkdir_parents false (anchored root) (rev (parts root)) w)
      as [[[]|e'|] wm]; cbn [fst snd] in *.
    + intros H. exfalso. apply (Hloop wm); [now rewrite Hfr|exact H].
    + discriminate.
    + intros _. specialize (Hu eq_refl). rewrite locate_eta in Hu. congruence.
  - rewrite (make_component_existing _ _ _ _ _ _ Hl Hs). fold root.
    intros H. exfalso. exact (Hloop w eq_refl H).
Qed.

Lemma proceed_status (a : args) (w : world) :
  exit_status (fst (proceed a w)) = Some 0%Z
  \/ exit_status (fst (proceed a w)) = Some 1%Z
  \/ (exit_status (fst (proceed a w)) = None
      /\ locate w (path_join (dir a) (component_name a)) = None).
Proof.
  rewrite proceed_cases.
  pose proof (make_component_outcome (component_name a) (dir a) (simple a) w)
    as H.
  pose proof (make_component_unsupported (component_name a) (dir a)
                (simple a) w) as Hu.
  destruct (make_component _ _ _ w) as [[[]|e|] w']; cbn [fst] in *.
  - now left.
  - right; left. destruct e; try discriminate; reflexivity.
  - right; right. split; [reflexivity|exact (Hu eq_refl)].
Qed.

(** X10: from its second statement on, [main] ends with status 1 for a
    name the validator rejects; its status is 0 only for a name the
    validator accepts; it is 0 or 1 whenever it is settled here, and it is
    not settled only when the directory given has a double-dot
    component. *)
Theorem main_exit_status (ucd : UnicodeData) (a : args) (w : world) :
  (is_component_name ucd (component_name a) = false ->
     exit_status (fst (main ucd a w)) = Some 1%Z)
  /\ (exit_status (fst (main ucd a w)) = Some 0%Z ->
     is_component_name ucd (component_name a) = true)
  /\ (forall c, exit_status (fst (main ucd a w)) = Some c ->
       c = 0%Z \/ c = 1%Z)
  /\ (exit_status (fst (main ucd a w)) = None -> locate w (dir a) = None).
Proof.
  destruct (is_component_name ucd (component_name a)) eqn:Hv.
  - split; [discriminate|]. split; [reflexivity|].
    rewrite (main_valid_name ucd a w Hv).
    set (w0 := put_stdout (plan_text a) w).
    assert (Hp : forall w1 c, exit_status (fst (proceed a w1)) = Some c ->
                   c = 0%Z \/ c = 1%Z).
    { intros w1 c Hc. destruct (proceed_status a w1) as [H|[H|[H _]]];
        rewrite H in Hc; [left|right|discriminate]; congruence. }
    assert (Hn : forall w1, cwd w1 = cwd w ->
                   exit_status (fst (proceed a w1)) = None ->
                   locate w (dir a) = None).
    { intros w1 Hc Hst. destruct (proceed_status a w1) as [H|[H|[_ H]]];
        [congruence|congruence|].
      rewrite (locate_join_plain w1 _ _ (valid_name_plain _ _ Hv)) in H.
      rewrite (locate_cwd w w1 _ Hc) in H.
      now destruct (locate w (dir a)). }
    destruct (after_plan_cases ucd a w0)
      as [[_ ->]|[_ [[_ ->]|[_ [->| ->]]]]].
    + split; [apply Hp|now apply Hn].
    + split; [intros c [= <-]; now right|discriminate].
    + split; [apply Hp|now apply Hn].
    + split; [intros c [= <-]; now left|discriminate].
  - rewrite (main_bad_name ucd a w Hv). cbn. split; [reflexivity|].
    split; [discriminate|]. split; [|discriminate].
    intros c [= <-]. now right.
Qed.

(** ** The streams of [main] *)

Lemma proceed_streams (a : args) (w : world) :
  cwd (snd (proceed a w)) = cwd w
  /\ stdin (snd (proceed a w)) = stdin w
  /\ stderr (snd (proceed a w)) = stderr w
  /\ (exists out, stdout (snd (proceed a w)) = stdout w ++ out)
  /\ files (snd (proceed a w))
     = files (snd (make_component (component_name a) (dir a)
                     (get_templates (simple a)) w)).
Proof.
  rewrite proceed_cases.
  destruct (make_component_changes (component_name a) (dir a)
              (get_templates (simple a)) w) as (Hs & _).
  destruct (make_component _ _ _ w) as [[[]|e|] w']; cbn [snd] in *;
    rewrite Hs; cbn [cwd stdin stderr stdout files put_stdout set_files];
    (split; [reflexivity|]); (split; [reflexivity|]);
    (split; [reflexivity|]); (split; [|reflexivity]).
  - now exists (msg_done ++ [NL]).
  - exists []. now rewrite app_nil_r.
  - exists []. now rewrite app_nil_r.
Qed.

(** X11: from its second statement on, [main] leaves the working
    directory as it is.  It reads nothing from the standard input when the
    name is rejected or the skip flag is given; otherwise it takes the
    first line off the input, when there is one. *)
Theorem main_reads_one_line (ucd : UnicodeData) (a : args) (w : world) :
  cwd (snd (main ucd a w)) = cwd w
  /\ (is_component_name ucd (component_name a) = false
      \/ skip_confirm a = true ->
        stdin (snd (main ucd a w)) = stdin w)
  /\ (is_component_name ucd (component_name a) = true ->
      skip_confirm a = false ->
        stdin (snd (main ucd a w)) = tl (stdin w)).
Proof.
  destruct (is_component_name ucd (component_name a)) eqn:Hv.
  2:{ rewrite (main_bad_name ucd a w Hv). cbn [snd cwd stdin put_stderr].
      split; [reflexivity|]. split; [reflexivity|discriminate]. }
  rewrite (main_valid_name ucd a w Hv).
  set (w0 := put_stdout (plan_text a) w).
  destruct (after_plan_cases ucd a w0)
    as [[Hs ->]|[Hs [[_ ->]|[_ [->| ->]]]]].
  - destruct (proceed_streams a w0) as (H1 & H2 & _).
    rewrite H1, H2.
    split; [reflexivity|]. split; [reflexivity|congruence].
  - cbn [snd cwd stdin drop_line put_stdout].
    split; [reflexivity|]. split; [intros [|]; congruence|reflexivity].
  - destruct (proceed_streams a (drop_line (put_stdout msg_prompt w0)))
      as (H1 & H2 & _).
    rewrite H1, H2.
    split; [reflexivity|]. split; [intros [|]; congruence|reflexivity].
  - cbn [snd cwd stdin drop_line put_stdout].
    split; [reflexivity|]. split; [intros [|]; congruence|reflexivity].
Qed.

Lemma main_reads_one_line_witness :
  stdin (snd (main ascii_only (button_args false false) two_lines))
  = [str_of "later"].
Proof.
  now rewrite (proj2 (proj2 (main_reads_one_line ascii_only
                               (button_args false false) two_lines))
                 eq_refl eq_refl).
Defined.

(** ** Where [main] writes *)

Lemma targets_elem (w : world) (root : Path) (items : list (str * str))
    (p : list str) :
  p ∈ targets w root items ->
  exists item, In item items /\ locate w (path_join root (fst item)) = Some p.
Proof.
  induction items as [|item rest IH].
  - intros H. now apply not_elem_of_nil in H.
  - unfold targets. cbn [omap list_omap].
    destruct (locate w (path_join root (fst item))) as [lp|] eqn:Hl.
    + intros [->|H]%elem_of_cons.
      * exists item. split; [now left|exact Hl].
      * destruct (IH H) as (it & Hin & Hit). exists it. split; [now right|exact Hit].
    + intros H. destruct (IH H) as (it & Hin & Hit).
      exists it. split; [now right|exact Hit].
Qed.

Lemma main_files (ucd : UnicodeData) (a : args) (w : world) :
  files (snd (main ucd a w)) = files w
  \/ exists w1,
       files w1 = files w /\ cwd w1 = cwd w
       /\ files (snd (main ucd a w))
          = files (snd (make_component (component_name a) (dir a)
                          (get_templates (simple a)) w1)).
Proof.
  destruct (is_component_name ucd (component_name a)) eqn:Hv.
  2:{ left. now rewrite (main_bad_name ucd a w Hv). }
  rewrite (main_valid_name ucd a w Hv).
  set (w0 := put_stdout (plan_text a) w).
  destruct (after_plan_cases ucd a w0)
    as [[_ ->]|[_ [[_ ->]|[_ [->| ->]]]]]; try (now left).
  - right. exists w0. repeat split. apply proceed_streams.
  - right. exists (drop_line (put_stdout msg_prompt w0)). repeat split.
    apply proceed_streams.
Qed.

(** X12: whatever [main] changes in the file system lies in one place: a
    location whose content differs afterwards is the root [dir/name], a
    directory on the way to it, or a file of the template set directly in
    the root. *)
Theorem main_writes_under_root (ucd : UnicodeData) (a : args) (w : world)
    (p : list str) :
  files (snd (main ucd a w)) !! p <> files w !! p ->
  exists lbase,
    locate w (dir a) = Some lbase
    /\ (p `prefix_of` lbase ++ [component_name a]
        \/ exists key,
             In key (List.map fst (get_templates (simple a)))
             /\ p = lbase ++ [component_name a; key]).
Proof.
  intros Hp.
  destruct (is_component_name ucd (component_name a)) eqn:Hv.
  2:{ rewrite (main_bad_name ucd a w Hv) in Hp. now contradiction Hp. }
  destruct (main_files ucd a w) as [E|(w1 & Hf & Hc & E)];
    [congruence|].
  rewrite E, <- Hf in Hp.
  destruct (make_component_changes (component_name a) (dir a)
              (get_templates (simple a)) w1) as (_ & _ & Hch).
  set (root := path_join (dir a) (component_name a)) in *.
  assert (Hroot : locate w1 root
                  = option_map (fun l => l ++ [component_name a])
                      (locate w (dir a))).
  { unfold root. rewrite (locate_join_plain w1 _ _ (valid_name_plain _ _ Hv)).
    now rewrite (locate_cwd w w1 _ Hc). }
  destruct (Hch p Hp) as [Ht|(_ & _ & lroot & Hl & Hpre)].
  - apply targets_elem in Ht as (item & Hin & Hit).
    pose proof (get_templates_plain (simple a)) as Hplain.
    rewrite List.Forall_forall in Hplain.
    rewrite (locate_join_plain w1 root _ (Hplain item Hin)), Hroot in Hit.
    destruct (locate w (dir a)) as [lbase|]; [|discriminate].
    exists lbase. split; [reflexivity|]. right. exists (fst item).
    split; [now apply in_map|]. cbn in Hit. injection Hit as <-.
    now rewrite <- app_assoc.
  - rewrite Hroot in Hl.
    destruct (locate w (dir a)) as [lbase|]; [|discriminate].
    exists lbase. split; [reflexivity|]. left. cbn in Hl.
    injection Hl as <-. exact Hpre.
Qed.

Lemma main_writes_under_root_witness :
  exists lbase,
    locate empty_world (dir (button_args true true)) = Some lbase
    /\ ([str_of "Button"; str_of "index.js"] `prefix_of` lbase ++ [str_of "Button"]
        \/ exists key,
             In key (List.map fst (get_templates true))
             /\ [str_of "Button"; str_of "index.js"]
                = lbase ++ [str_of "Button"; key]).
Proof.
  apply (main_writes_under_root ascii_only (button_args true true) empty_world).
  vm_compute. discriminate.
Defined.

(** ** The validator and the final line feed *)

Lemma forallb_snoc (P : N -> bool) (s : str) (c : N) :
  forallb P (s ++ [c]) = forallb P s && P c.
Proof. rewrite forallb_app. cbn. now rewrite andb_true_r. Qed.

Lemma ends_nl_snoc (s : str) (c : N) : ends_nl (s ++ [c]) = (c =? NL).
Proof.
  induction s as [|d s IH]; [reflexivity|].
  cbn [app]. destruct (s ++ [c]) as [|e t] eqn:E; [now destruct s|].
  rewrite ends_nl_cons. exact IH.
Qed.

(** X13: appending one line feed to a name that does not end in one does
    not change the verdict of the validator: [$] matches before a final
    line feed, so a valid name followed by a line feed is accepted too. *)
Theorem is_component_name_line_feed (ucd : UnicodeData) (name : str) :
  ends_nl name = false ->
  is_component_name ucd (name ++ [NL]) = is_component_name ucd name.
Proof.
  intros Hnl. rewrite !is_component_name_eq.
  destruct name as [|c rest]; [reflexivity|]. cbn [app].
  apply ends_nl_tail in Hnl.
  rewrite forallb_snoc, ends_nl_snoc, removelast_last, Hnl.
  change (re_word ucd NL) with false.
  rewrite andb_false_r, N.eqb_refl. cbn [orb andb].
  now rewrite orb_false_r.
Qed.

Lemma is_component_name_line_feed_witness :
  is_component_name ascii_only (str_of "Button" ++ [NL]) = true.
Proof.
  now rewrite (is_component_name_line_feed ascii_only (str_of "Button") eq_refl).
Defined.

(** ** Running [main] again *)

Lemma make_component_again (name : str) (base : Path)
    (mapping : list (str * str)) (w w1 : world) :
  make_component name base mapping w = (Ret tt, w1) ->
  make_component name base mapping w1 = (Ret tt, w1).
Proof.
  intros Hrun. set (root := path_join base name) in *.
  destruct (locate w root) as [lroot|] eqn:Hl.
  2:{ unfold make_component, bind, path_exists in Hrun. fold root in Hrun.
      rewrite Hl in Hrun. discriminate. }
  assert (Hstart : exists wm,
             wm = set_files (files wm) w
             /\ (exists k, stat (files wm) lroot = inr k)
             /\ write_items root name mapping wm = (Ret tt, w1)).
  { destruct (stat (files w) lroot) as [e|k] eqn:Hs.
    - destruct (ignored e) eqn:Hi.
      2:{ rewrite (make_component_unreadable _ _ _ _ _ _ Hl Hs Hi) in Hrun.
          discriminate. }
      rewrite (make_component_missing _ _ _ _ _ _ Hl Hs Hi) in Hrun.
      fold root in Hrun. unfold bind in Hrun.
      destruct (mkdir true root w) as [[[]|e'|] wm] eqn:Hm; try discriminate.
      destruct (mkdir_true_ret _ _ _ _ Hl Hm) as [Hfr Hd].
      exists wm. split; [exact Hfr|]. split; [now exists Dir|exact Hrun].
    - rewrite (make_component_existing _ _ _ _ _ _ Hl Hs) in Hrun.
      exists w. split; [now rewrite set_files_same|].
      split; [now exists k|exact Hrun]. }
  destruct Hstart as (wm & Hfr & [k Hk] & Hloop).
  destruct (write_items_rerun root name mapping wm w1 Hloop)
    as (Heq & Hext & _).
  destruct (stat_extends _ _ _ _ Hext Hk) as [k' Hk'].
  assert (Hl1 : locate w1 root = Some lroot).
  { rewrite Heq, Hfr. exact Hl. }
  rewrite (make_component_existing _ _ _ _ _ _ Hl1 Hk').
  exact (write_items_again _ _ _ _ _ Hloop).
Qed.

Lemma fs_only_bind {A B} (c : io A) (k : A -> io B) :
  fs_only c -> (forall a, fs_only (k a)) -> fs_only (bind c k).
Proof.
  intros Hc Hk w v. unfold bind. rewrite (Hc w v).
  destruct (c w) as [[a|e|] w']; cbn [fst snd]; [apply Hk|reflexivity..].
Qed.

Lemma fs_only_ret {A} (a : A) : fs_only (ret a).
Proof. intros w v. reflexivity. Qed.

Lemma fs_only_path_exists (p : Path) : fs_only (path_exists p).
Proof.
  intros w v. unfold path_exists.
  change (locate (with_fs w v) p) with (locate w p).
  change (files (with_fs w v)) with (files w).
  destruct (locate w p) as [lp|]; [|reflexivity].
  destruct (stat (files w) lp) as [e|k]; [|reflexivity].
  destruct (ignored e); reflexivity.
Qed.

Lemma fs_only_open_w (p : Path) : fs_only (open_w p).
Proof.
  intros w v. unfold open_w.
  change (locate (with_fs w v) p) with (locate w p).
  change (files (with_fs w v)) with (files w).
  destruct (locate w p) as [[|c lp]|]; try reflexivity.
  destruct (stat (files w) (removelast (c :: lp))) as [e|[|d]];
    try reflexivity.
  destruct (name_fits (List.last (c :: lp) [])); [|reflexivity].
  destruct (files w !! (c :: lp)) as [[|d]|]; reflexivity.
Qed.

Lemma fs_only_render_template (file : list str) (t name : str) :
  fs_only (render_template file t name).
Proof.
  intros w v. unfold render_template.
  destruct (format t name); try reflexivity.
  unfold file_write. change (files (with_fs w v)) with (files w).
  destruct (files w !! file) as [[|old]|]; reflexivity.
Qed.

Lemma fs_only_write_items root name (items : list (str * str)) :
  fs_only (write_items root name items).
Proof.
  induction items as [|[key t] items IH]; [apply fs_only_ret|].
  cbn [write_items]. apply fs_only_bind; [apply fs_only_open_w|].
  intros file. apply fs_only_bind; [apply fs_only_render_template|].
  intros _. exact IH.
Qed.

Lemma fs_only_mkdir_plain (exist_ok : bool) (p : Path) :
  fs_only (mkdir_plain exist_ok p).
Proof.
  intros w v. unfold mkdir_plain.
  change (locate (with_fs w v) p) with (locate w p).
  change (files (with_fs w v)) with (files w).
  destruct (locate w p) as [lp|]; [|reflexivity].
  destruct (os_mkdir (files w) lp) as [e|fs']; [|reflexivity].
  destruct e; try reflexivity;
    destruct (exist_ok && is_dir (files w) lp); reflexivity.
Qed.

Lemma fs_only_mkdir_parents (anch : bool) (rparts : list str) :
  forall exist_ok, fs_only (mkdir_parents exist_ok anch rparts).
Proof.
  induction rparts as [|c rparent IH]; intros exist_ok w v;
    cbn [mkdir_parents];
    change (locate (with_fs w v) ?p) with (locate w p);
    change (files (with_fs w v)) with (files w);
    (destruct (locate w _) as [lp|]; [|reflexivity]);
    (destruct (os_mkdir (files w) lp) as [e|fs']; [|reflexivity]).
  - destruct e; try reflexivity;
      destruct (exist_ok && is_dir (files w) lp); reflexivity.
  - destruct e; try reflexivity;
      try (destruct (exist_ok && is_dir (files w) lp); reflexivity).
    apply (fs_only_bind (mkdir_parents true anch rparent)
             (fun _ => mkdir_plain exist_ok _)).
    + apply IH.
    + intros _. apply fs_only_mkdir_plain.
Qed.

Lemma fs_only_make_component (name : str) (base : Path)
    (mapping : list (str * str)) :
  fs_only (make_component name base mapping).
Proof.
  unfold make_component. apply fs_only_bind; [apply fs_only_path_exists|].
  intros found. apply fs_only_bind; [|intros _; apply fs_only_write_items].
  destruct found; cbn [negb]; [apply fs_only_ret|].
  unfold mkdir. apply fs_only_mkdir_parents.
Qed.

(** X14: with a valid name and the skip flag, when a run of [main] returns
    normally, a second run from the world it left returns normally too and
    leaves the file system exactly as the first run left it; it only
    prints the plan and the closing message once more. *)
Theorem main_twice (ucd : UnicodeData) (a : args) (w w1 : world) :
  is_component_name ucd (component_name a) = true ->
  skip_confirm a = true ->
  main ucd a w = (Ret tt, w1) ->
  exists w2,
    main ucd a w1 = (Ret tt, w2)
    /\ files w2 = files w1
    /\ stdout w2 = stdout w1 ++ plan_text a ++ msg_done ++ [NL].
Proof.
  intros Hv Hskip Hrun.
  rewrite (main_skip ucd a w Hv Hskip), proceed_cases in Hrun.
  destruct (make_component (component_name a) (dir a)
              (get_templates (simple a)) (put_stdout (plan_text a) w))
    as [[[]|e|] wm] eqn:Hmc; try discriminate.
  assert (Hw1 : w1 = put_stdout (msg_done ++ [NL]) wm) by congruence.
  subst w1. clear Hrun.
  apply make_component_again in Hmc.
  set (v := put_stdout (plan_text a) (put_stdout (msg_done ++ [NL]) wm)).
  pose proof (fs_only_make_component (component_name a) (dir a)
                (get_templates (simple a)) wm v) as Hv2.
  rewrite Hmc in Hv2. cbn [fst snd] in Hv2.
  change (with_fs wm v) with v in Hv2.
  exists (put_stdout (msg_done ++ [NL]) v).
  rewrite (main_skip ucd a _ Hv Hskip), proceed_cases. fold v. rewrite Hv2.
  split; [reflexivity|]. split; [reflexivity|].
  unfold v. cbn [stdout put_stdout]. now rewrite <- !app_assoc.
Qed.

Lemma main_twice_witness :
  exists w1 w2,
    main ascii_only (button_args true false) empty_world = (Ret tt, w1)
    /\ main ascii_only (button_args true false) w1 = (Ret tt, w2)
    /\ files w2 = files w1.
Proof.
  eexists.
  edestruct (main_twice ascii_only (button_args true false) empty_world)
    as (w2 & H2 & Hf & _);
    [reflexivity|reflexivity|vm_compute; reflexivity|].
  exists w2. split; [vm_compute; reflexivity|]. split; [exact H2|exact Hf].
Defined.
